(** * Section tracking, breakpoints and panel transitions

    A shallow embedding of the three source files of the site:

    - the legacy single-page script (panels, [checkWidths], [showSection],
      [addNavs] and the nav click handler),
    - the legacy projects script ([toggleInfo] and its nav click handler),
    - the Next.js [InContext] container and the [Screen] component.

    jQuery collections become lists, [each] becomes [map], CSS classes are
    kept as the list of class names of the [class] attribute, pixel values
    are rationals (the source divides heights by 1.5), and everything the
    scripts keep in closure variables or in the DOM is threaded through an
    explicit state record. *)

From Stdlib Require Import List String Ascii ZArith QArith Bool Lia.
From Stdlib Require Import Permutation.
Import ListNotations.

Local Open Scope string_scope.
Local Open Scope list_scope.

(** ** DOM primitives shared by both legacy scripts *)

Module Dom.

(** [$(el).is('.' + c)] on the class list of an element. *)
Definition hasClass (c : string) (cl : list string) : bool :=
  existsb (String.eqb c) cl.

(** jQuery's [addClass] appends the name unless it is already present. *)
Definition addClass (c : string) (cl : list string) : list string :=
  if hasClass c cl then cl else cl ++ [c].

(** jQuery's [removeClass] drops every occurrence of the name. *)
Definition removeClass (c : string) (cl : list string) : list string :=
  filter (fun x => negb (String.eqb c x)) cl.

Definition toggleClass (c : string) (cl : list string) : list string :=
  if hasClass c cl then removeClass c cl else addClass c cl.

(** What the scripts get where a string may be missing: JavaScript's
    [undefined] or a string. *)
Inductive Value : Type :=
| undefined
| Str (s : string).

Coercion Str : string >-> Value.

(** Strict equality [===] of two such values. *)
Definition strictEq (a b : Value) : bool :=
  match a, b with
  | undefined, undefined => true
  | Str s, Str t => String.eqb s t
  | _, _ => false
  end.

(** What string concatenation makes of a value. *)
Definition toStr (v : Value) : string :=
  match v with
  | undefined => "undefined"
  | Str s => s
  end.

(** [attr('class').split(" ")[1]]: the second class name, [undefined] when
    the attribute holds fewer than two names. *)
Definition secondClass (cl : list string) : Value :=
  match nth_error cl 1 with
  | Some c => Str c
  | None => undefined
  end.

(** [Array.prototype.indexOf]: position of the first element strictly equal
    to the value, [-1] when there is none. *)
Fixpoint indexOf (l : list Value) (x : Value) : Z :=
  match l with
  | [] => (-1)%Z
  | y :: l' =>
      if strictEq y x then 0%Z
      else let r := indexOf l' x in
           if (r <? 0)%Z then (-1)%Z else (r + 1)%Z
  end.

(** The inline [display] style of an element. *)
Inductive Display : Type :=
| DisplayUnset
| DisplayBlock
| DisplayNone.

(** The inline [top] style of an element: pixels or a percentage. *)
Inductive Top : Type :=
| TopUnset
| TopPx (px : Q)
| TopPercent (pct : Z).

(** One entry of an element's jQuery effects queue: the [top] value the
    animation runs to and the duration argument as written in the call. *)
Record Anim : Type := mkAnim {
  animTop : Top;
  animDuration : string
}.

End Dom.

Import Dom.

(** ** The legacy single-page script *)

Module Legacy.

(** An [.inner-col] element. *)
Record Panel : Type := mkPanel {
  classes : list string;
  display : Display;
  top : Top;
  outerHeight : Q;
  fx : list Anim
}.

Definition withClasses (f : list string -> list string) (p : Panel) : Panel :=
  mkPanel (f (classes p)) (display p) (top p) (outerHeight p) (fx p).

Definition cssDisplay (d : Display) (p : Panel) : Panel :=
  mkPanel (classes p) d (top p) (outerHeight p) (fx p).

Definition cssTop (t : Top) (p : Panel) : Panel :=
  mkPanel (classes p) (display p) t (outerHeight p) (fx p).

(** [$(this).animate({top: t}, duration)] queues the animation. *)
Definition animate (t : Top) (duration : string) (p : Panel) : Panel :=
  mkPanel (classes p) (display p) (top p) (outerHeight p)
          (fx p ++ [mkAnim t duration]).

Definition is_ (c : string) (p : Panel) : bool := hasClass c (classes p).

(** A [.nav-item] element and the [.nav] element that holds it. *)
Record NavItem : Type := mkNavItem { itemClasses : list string }.

Record Nav : Type := mkNav {
  navOwner : list string;      (* class list of the closest [.inner-col] *)
  navItems : list NavItem
}.

(** The only callback the script ever hands to [setTimeout]. *)
Inductive TimerCallback : Type :=
| hideHiddenCols.

Record Timer : Type := mkTimer {
  callback : TimerCallback;
  delay : Z
}.

(** Closure variables of the ready handler and the part of the DOM it
    touches. *)
Record Page : Type := mkPage {
  sections : list Value;
  mobile : bool;
  cols : list Panel;           (* [$('.inner-col')], in document order *)
  navs : list Nav;             (* [$('.nav')], in document order *)
  documentHeight : Q;          (* what [$(document).height()] returns when
                                  [showSection] asks for it *)
  timers : list Timer          (* pending [setTimeout] callbacks *)
}.

Definition setMobile (b : bool) (st : Page) : Page :=
  mkPage (sections st) b (cols st) (navs st) (documentHeight st) (timers st).

Definition setCols (c : list Panel) (st : Page) : Page :=
  mkPage (sections st) (mobile st) c (navs st) (documentHeight st) (timers st).

Definition setTimers (t : list Timer) (st : Page) : Page :=
  mkPage (sections st) (mobile st) (cols st) (navs st) (documentHeight st) t.

(** [$(selector).each(f)] over the columns: [f] is applied to the columns
    the selector matches, the others stay as they are. *)
Definition each (sel : Panel -> bool) (f : Panel -> Panel) (st : Page) : Page :=
  setCols (map (fun p => if sel p then f p else p) (cols st)) st.

Definition all (p : Panel) : bool := true.

Definition not_ (c : string) (p : Panel) : bool := negb (is_ c p).

Definition MOBILE_SIZE : Z := 800.

(** The three loop bodies of [checkWidths]. *)
Definition stackCol (p : Panel) : Panel :=
  cssDisplay DisplayBlock
    (withClasses (addClass "mobile") (withClasses (removeClass "hidden") p)).

Definition unstackCol (p : Panel) : Panel :=
  cssDisplay DisplayNone
    (withClasses (addClass "hidden") (withClasses (removeClass "mobile") p)).

Definition resetHome (p : Panel) : Panel :=
  cssTop (TopPercent 50) (withClasses (removeClass "mobile") p).

(** [checkWidths]; the argument is what [$(window).width()] returns. *)
Definition checkWidths (windowWidth : Z) (st : Page) : Page :=
  if ((windowWidth <=? MOBILE_SIZE)%Z && negb (mobile st))%bool then
    each all stackCol (setMobile true st)
  else if ((windowWidth >? MOBILE_SIZE)%Z && mobile st)%bool then
    each (is_ "home") resetHome
      (each (not_ "home") unstackCol (setMobile false st))
  else st.

(** [colHeight/1.5] *)
Definition twoThirds (colHeight : Q) : Q := colHeight / (3 # 2).

(** First loop of [showSection]: where a visible column is sent. *)
Definition moveOut (dir : string) (offScreen colHeight : Q) : Top :=
  if dir =? "up" then TopPx (offScreen + twoThirds colHeight)
  else TopPx (- twoThirds colHeight).

(** Last loop of [showSection]: where a column is put before it slides in. *)
Definition moveIn (dir : string) (offScreen colHeight : Q) : Top :=
  if dir =? "up" then TopPx (- twoThirds colHeight)
  else TopPx (offScreen + twoThirds colHeight).

(** The bodies of the two loops of [showSection]. *)
Definition slideOut (dir : string) (offScreen : Q) (p : Panel) : Panel :=
  let colHeight := outerHeight p in
  animate (moveOut dir offScreen colHeight) "3s"
          (withClasses (addClass "hidden") p).

Definition slideIn (dir : string) (offScreen : Q) (p : Panel) : Panel :=
  let colHeight := outerHeight p in
  animate (TopPercent 50) "3s"
          (cssDisplay DisplayBlock
             (cssTop (moveIn dir offScreen colHeight) p)).

Definition setTimeout (cb : TimerCallback) (ms : Z) (st : Page) : Page :=
  setTimers (timers st ++ [mkTimer cb ms]) st.

Definition showSection (sectionName dir : string) (st : Page) : Page :=
  if negb (mobile st) then
    let offScreen := documentHeight st in
    let st := each (not_ "hidden") (slideOut dir offScreen) st in
    let st := each (is_ sectionName) (withClasses (removeClass "hidden")) st in
    let st := setTimeout hideHiddenCols 500 st in
    each (not_ "hidden") (slideIn dir offScreen) st
  else st.

(** What the [setTimeout] callback does when it runs. *)
Definition runCallback (cb : TimerCallback) (st : Page) : Page :=
  match cb with
  | hideHiddenCols => each (is_ "hidden") (cssDisplay DisplayNone) st
  end.

(** The markup [addNavs] writes for one section, and the marking of the
    items whose class list holds the name of the owning column. *)
Definition newItem (className : string) : NavItem :=
  mkNavItem ["nav-item"; className].

Definition markActive (className : string) (it : NavItem) : NavItem :=
  if hasClass className (itemClasses it)
  then mkNavItem (addClass "active" (itemClasses it))
  else it.

(** [addNavs]: remember the second class of every column, [undefined]
    included, fill every [.nav] with one [.nav-item] per column, the class
    spliced into the markup as a string, and mark the items that carry the
    class of the owning column active. *)
Definition addNavs (st : Page) : Page :=
  let names := map (fun p => secondClass (classes p)) (cols st) in
  let nav := map (fun className => newItem (toStr className)) names in
  mkPage (sections st ++ names) (mobile st) (cols st)
         (map (fun n =>
                 let className := secondClass (navOwner n) in
                 mkNav (navOwner n) (map (markActive (toStr className)) nav))
              (navs st))
         (documentHeight st) (timers st).

(** [$(this).siblings()] restricted to the [.nav-item] elements; the
    separator spans between them carry no class and add nothing below. *)
Definition siblings (k : nat) (items : list NavItem) : list NavItem :=
  firstn k items ++ skipn (S k) items.

(** The loop that concatenates the section names of the active siblings. *)
Definition activeSiblingName (sibs : list NavItem) : string :=
  fold_left
    (fun currSection it =>
       (currSection ++
        (if hasClass "active" (itemClasses it)
         then toStr (secondClass (itemClasses it)) else ""))%string)
    sibs "".

(** "up" when the current section comes after the selected one. *)
Definition navDirection (secs : list Value) (currSection : string)
  (selSection : Value) : string :=
  if (indexOf secs (Str currSection) >? indexOf secs selSection)%Z
  then "up" else "down".

(** The two directions under the names the design documents use: the
    handler says "down" for a move to a section after the current one. *)
Definition towardEnd : string := "down".

Definition towardStart : string := "up".

(** The click handler of item [k] of nav [n].  The handler is bound once,
    after [addNavs], to the items that are not active; the classes of the
    items never change afterwards, so an active item has no handler. *)
Definition navItemClick (n k : nat) (st : Page) : Page :=
  match nth_error (navs st) n with
  | None => st
  | Some nav =>
      match nth_error (navItems nav) k with
      | None => st
      | Some it =>
          if hasClass "active" (itemClasses it) then st
          else
            let selSection := secondClass (itemClasses it) in
            let currSection := activeSiblingName (siblings k (navItems nav)) in
            let dir := navDirection (sections st) currSection selSection in
            showSection (toStr selSection) dir st
      end
  end.

(** [$('#intro h3').click] *)
Definition introClick (st : Page) : Page := showSection "about" "down" st.

(** A pending timer fires: it leaves the pending list and its callback
    runs. *)
Definition fireTimer (k : nat) (st : Page) : Page :=
  match nth_error (timers st) k with
  | None => st
  | Some t =>
      runCallback (callback t)
                  (setTimers (firstn k (timers st) ++ skipn (S k) (timers st)) st)
  end.

(** Every pending timer fires, oldest first (they all wait 500 ms). *)
Definition settle (st : Page) : Page :=
  fold_left (fun s _ => fireTimer 0 s) (timers st) st.

(** Everything that can happen to the page after it is ready. *)
Inductive Event : Type :=
| Resize (windowWidth : Z)
| IntroClick
| NavItemClick (n k : nat)
| TimerFires (k : nat).

Definition handle (e : Event) (st : Page) : Page :=
  match e with
  | Resize w => checkWidths w st
  | IntroClick => introClick st
  | NavItemClick n k => navItemClick n k st
  | TimerFires k => fireTimer k st
  end.

Definition run (es : list Event) (st : Page) : Page :=
  fold_left (fun s e => handle e s) es st.

(** The body of the ready handler up to the first [checkWidths()] call. *)
Definition ready (panels : list Panel) (navEls : list Nav) (docHeight : Q)
  (windowWidth : Z) : Page :=
  checkWidths windowWidth (addNavs (mkPage [] false panels navEls docHeight [])).

(** A sequence of window widths, each followed by [checkWidths]. *)
Definition resizes (ws : list Z) (st : Page) : Page :=
  fold_left (fun s w => checkWidths w s) ws st.

(** The layout switches such a sequence causes, each as the value of
    [mobile] before and after the call that made it. *)
Fixpoint tierTransitions (ws : list Z) (st : Page) : list (bool * bool) :=
  match ws with
  | [] => []
  | w :: rest =>
      let st' := checkWidths w st in
      (if Bool.eqb (mobile st) (mobile st') then []
       else [(mobile st, mobile st')])
      ++ tierTransitions rest st'
  end.

End Legacy.

(** ** The legacy projects script *)

Module Projects.

(** An entry of [projects.json].  The name decides which entry
    [toggleInfo] takes; [timescale] and [desc] are the two fields it calls
    [split] on, [None] standing for a field that is missing or is not a
    string.  The other fields are only spliced into the markup of the info
    view. *)
Record Project : Type := mkProject {
  name : string;
  link : string;
  timescale : option string;
  desc : option string
}.

(** A [.project-card]: the text of its [h1] and its geometry. *)
Record Card : Type := mkCard {
  cardTitle : string;
  cardTop : Q;
  cardLeft : Q;
  cardHeight : Q;
  cardWidth : Q
}.

(** An [animate] call on [.extra-info]: [top] and [left] change by the given
    amounts while [width] and [height] are toggled. *)
Record InfoAnim : Type := mkInfoAnim {
  shiftTop : Q;
  shiftLeft : Q
}.

Record ProjPage : Type := mkProjPage {
  projData : option (list Project);   (* [undefined] until the JSON arrives *)
  cards : list Card;
  infoClasses : list string;          (* classes of [.extra-info] *)
  infoTitle : string;                 (* text of its [h1 strong] *)
  infoTop : Q;
  infoLeft : Q;
  infoFx : list InfoAnim;             (* effects queue of [.extra-info] *)
  contentFx : list Q;                 (* opacity animations of its children *)
  overlayFx : list Q                  (* opacity animations of the overlay *)
}.

(** The last card whose [h1] text is [proj]. *)
Definition findCard (proj : string) (cs : list Card) : option Card :=
  fold_left (fun card c => if cardTitle c =? proj then Some c else card)
            cs None.

(** The last project whose name is [proj]. *)
Definition findProject (proj : string) (ps : list Project) : option Project :=
  fold_left (fun projObj p => if name p =? proj then Some p else projObj)
            ps None.

(** [toggleInfo(dir, proj)].  [None] is a [TypeError]: reading a property
    of [undefined] ([projData], the card, the project), or calling [split]
    on a [timescale] or [desc] that is no string.  Every such step comes
    before the first change to the page, so nothing has been modified when
    it is thrown.  The markup put into the info view is kept only as the
    text of its [h1 strong], which is the project name (the link inside it
    holds an icon and no text). *)
Definition toggleInfo (dir proj : string) (s : ProjPage) : option ProjPage :=
  let card := findCard proj (cards s) in
  match projData s with
  | None => None
  | Some projects =>
      let projObj := findProject proj projects in
      match card with
      | None => None
      | Some card =>
          let middleTop := cardTop card + cardHeight card / 2 in
          let middleLeft := cardLeft card + cardWidth card / 2 in
          if dir =? "out" then
            match projObj with
            | None => None
            | Some projObj =>
                match timescale projObj with
                | None => None
                | Some _ =>
                    match desc projObj with
                    | None => None
                    | Some _ =>
                        Some (mkProjPage (projData s) (cards s)
                                (toggleClass "hidden" (infoClasses s))
                                proj middleTop middleLeft
                                (infoFx s
                                 ++ [mkInfoAnim (- middleTop) (- middleLeft)])
                                (contentFx s ++ [1])
                                (overlayFx s))
                    end
                end
            end
          else
            Some (mkProjPage (projData s) (cards s)
                    (toggleClass "hidden" (infoClasses s))
                    (infoTitle s) (infoTop s) (infoLeft s)
                    (infoFx s ++ [mkInfoAnim middleTop middleLeft])
                    (contentFx s ++ [0])
                    (overlayFx s ++ [0]))
      end
  end.

(** The click handler this script binds to the non-active nav items. *)
Definition navItemClick (s : ProjPage) : option ProjPage :=
  if negb (hasClass "hidden" (infoClasses s)) then
    let proj := infoTitle s in
    toggleInfo "in" proj s
  else Some s.

(** Click on a [.project-card] and on the exit mark of the info view. *)
Definition cardClick (c : Card) (s : ProjPage) : option ProjPage :=
  toggleInfo "out" (cardTitle c) s.

Definition exitClick (s : ProjPage) : option ProjPage :=
  toggleInfo "in" (infoTitle s) s.

End Projects.

(** ** Both legacy scripts on one page *)

Module Site.

Record State : Type := mkState {
  page : Legacy.Page;
  proj : Projects.ProjPage
}.

(** Each script binds its nav handler in its own ready callback, to the
    nav items that exist and are not active at that moment.  The items are
    created by [addNavs] ([$(this).html(nav)] in the main script's ready
    callback), so the order of the two callbacks matters:
    - [mainFirst]: both handlers are bound to the items; jQuery calls them
      in binding order, the main script's first, and a handler that throws
      keeps the later ones from running;
    - [projectsFirst]: the projects script finds no item made by [addNavs]
      yet, and whatever it bound to is replaced by [addNavs]; only the main
      script's handler is on the items. *)
Inductive ScriptOrder : Type :=
| mainFirst
| projectsFirst.

(** A click on item [k] of nav [n]. *)
Definition navItemClick (o : ScriptOrder) (n k : nat) (s : State) : State :=
  match o with
  | mainFirst =>
      let pg := Legacy.navItemClick n k (page s) in
      let bound :=
        match nth_error (Legacy.navs (page s)) n with
        | None => false
        | Some nav =>
            match nth_error (Legacy.navItems nav) k with
            | None => false
            | Some it => negb (hasClass "active" (Legacy.itemClasses it))
            end
        end in
      if bound then
        match Projects.navItemClick (proj s) with
        | None => mkState pg (proj s)
        | Some pr => mkState pg pr
        end
      else mkState pg (proj s)
  | projectsFirst =>
      mkState (Legacy.navItemClick n k (page s)) (proj s)
  end.

(** The intro heading only has the handler of the main script. *)
Definition introClick (s : State) : State :=
  mkState (Legacy.introClick (page s)) (proj s).

(** Some column has an animation in its effects queue. *)
Definition baseAnimating (s : State) : bool :=
  existsb (fun p => match Legacy.fx p with [] => false | _ :: _ => true end)
          (Legacy.cols (page s)).

(** The info view is closed for good: it carries the [hidden] class and
    none of its animations is still queued. *)
Definition closeCompleted (s : State) : bool :=
  (hasClass "hidden" (Projects.infoClasses (proj s))
   && match Projects.infoFx (proj s) with [] => true | _ :: _ => false end)%bool.

End Site.

(** ** The section index resolver *)

Module Resolver.

(** Modelled from the spec: the section of its data model, an identifier,
    a 0-based order and the scroll offset at which the section becomes the
    current one.  Offsets are taken as whole pixels. *)
Record Section : Type := mkSection {
  id : string;
  order : nat;
  startOffset : Z
}.

(** Modelled from the spec: the search of the resolver, written as one pass
    over the list that remembers the last index whose start offset is not
    beyond [offset]; [best] is what is reported when there is none. *)
Fixpoint greatestIndex (secs : list Section) (offset : Z) (i best : nat)
  : nat :=
  match secs with
  | [] => best
  | s :: rest =>
      greatestIndex rest offset (S i)
                    (if (startOffset s <=? offset)%Z then i else best)
  end.

(** Modelled from the spec: the hook [useCurrentSectionIndex] that holds the
    resolver is not among the sources.  The spec words it as: find the
    greatest index [i] such that [sections[i].startOffset <= offset]; if
    [offset] is before the first section's start, return [0]; if [sections]
    is empty, return undefined. *)
Definition resolve (secs : list Section) (offset : Z) : option nat :=
  match secs with
  | [] => None
  | _ :: _ => Some (greatestIndex secs offset 0 0)
  end.

(** The well-formedness the spec asks of a section list: sorted ascending
    by [startOffset], and [order] the position in the list. *)
Fixpoint ascending (secs : list Section) : Prop :=
  match secs with
  | [] => True
  | s :: rest =>
      match rest with
      | [] => True
      | s' :: _ => (startOffset s <= startOffset s')%Z
      end /\ ascending rest
  end.

(** [order] is 0-based, unique and contiguous. *)
Definition ordered (secs : list Section) : Prop :=
  forall i s, nth_error secs i = Some s -> order s = i.

Definition well_formed (secs : list Section) : Prop :=
  ordered secs /\ ascending secs.

End Resolver.

(** ** The Next.js container: router listeners and rendering *)

Module App.

Import Resolver.

(** The router events the container listens to. *)
Inductive RouterEvent : Type :=
| routeChangeStart
| routeChangeComplete
| hashChangeStart.

(** The functions the container hands to [router.events.on]. *)
Inductive Handler : Type :=
| onRouteStart
| onRouteCompleteScroll
| recalculateSectionIndex.

Definition event_eqb (a b : RouterEvent) : bool :=
  match a, b with
  | routeChangeStart, routeChangeStart => true
  | routeChangeComplete, routeChangeComplete => true
  | hashChangeStart, hashChangeStart => true
  | _, _ => false
  end.

Definition handler_eqb (a b : Handler) : bool :=
  match a, b with
  | onRouteStart, onRouteStart => true
  | onRouteCompleteScroll, onRouteCompleteScroll => true
  | recalculateSectionIndex, recalculateSectionIndex => true
  | _, _ => false
  end.

(** [router.events]: the registered handlers in registration order. *)
Definition Listeners : Type := list (RouterEvent * Handler).

Definition on (ev : RouterEvent) (h : Handler) (ls : Listeners) : Listeners :=
  (ls ++ [(ev, h)])%list.

(** [off] takes out one registration of the handler, the oldest. *)
Fixpoint off (ev : RouterEvent) (h : Handler) (ls : Listeners) : Listeners :=
  match ls with
  | [] => []
  | (e, g) :: rest =>
      if (event_eqb e ev && handler_eqb g h)%bool then rest
      else (e, g) :: off ev h rest
  end.

(** The body of the [useEffect] callback: the listeners after it ran and
    [removeEventListenerFns], each clean-up function being the [off] call
    it makes.  [recalc] is the second component of what the hook
    [useCurrentSectionIndex] returned, [None] for a falsy value. *)
Definition effect (recalc : option Handler) (ls : Listeners)
  : Listeners * list (RouterEvent * Handler) :=
  let removeEventListenerFns := [] in
  let ls := on routeChangeStart onRouteStart ls in
  let ls := on routeChangeComplete onRouteCompleteScroll ls in
  let '(ls, removeEventListenerFns) :=
    match recalc with
    | Some f =>
        (on hashChangeStart f ls,
         (removeEventListenerFns ++ [(hashChangeStart, f)])%list)
    | None => (ls, removeEventListenerFns)
    end in
  (ls,
   (removeEventListenerFns ++
    [(routeChangeStart, onRouteStart);
     (routeChangeComplete, onRouteCompleteScroll)])%list).

(** The function the effect returns: [forEach(removeEventListenerFns, fn => fn())]. *)
Definition cleanup (fns : list (RouterEvent * Handler)) (ls : Listeners)
  : Listeners :=
  fold_left (fun l f => off (fst f) (snd f) l) fns ls.






(** [state?.[slug] || []] over the dictionary of section start heights,
    whatever an entry of the per-page lists is. *)
Definition sectionHeights {A : Type} (state : option (list (string * list A)))
  (slug : string) : list A :=
  match state with
  | None => []
  | Some dict =>
      match find (fun kv => fst kv =? slug) dict with
      | Some kv => snd kv
      | None => []
      end
  end.

(** [replace(router.pathname, /^\//, '')] *)
Definition slugOf (pathname : string) : string :=
  match pathname with
  | String "/" rest => rest
  | _ => pathname
  end.

Section Rendering.

(** Types and predicates declared in files that are not among the sources:
    the content sections of a page, the display size tiers with the two
    predicates of [breakpoint-sizes], and the scroll percentage. *)
Variable ContentSection : Type.
Variable Percent : Type.
Variable DisplaySize : Type.
Variable shouldShowMainNavMenu : DisplaySize -> bool.
Variable shouldShowSideNavMenu : DisplaySize -> bool.

Record ContentSections : Type := mkContentSections {
  currentSectionIndex : nat;
  contentSectionList : list ContentSection
}.

Record ScreenProps : Type := mkScreenProps {
  activePage : string;
  contentSections : option ContentSections;
  screenRendering : bool;
  scrollPercent : option Percent
}.

(** What [InContext] returns: the bare children on the index route, a
    [Screen] around them elsewhere. *)
Inductive Rendered : Type :=
| Children
| ScreenEl (props : ScreenProps).

Definition InContext (route pathname : string)
  (getSectionsForPage : string -> list ContentSection)
  (index : nat) (isRendering : bool) (percent : option Percent)
  : Rendered :=
  let isIndex := route =? "/" in
  let slug := slugOf pathname in
  let secs := getSectionsForPage slug in
  if isIndex then Children
  else
    ScreenEl
      (mkScreenProps slug
         (if (0 <? List.length secs)%nat
          then Some (mkContentSections index secs)
          else None)
         isRendering percent).

(** The main navigation is either the full menu or the drawer. *)
Inductive MainNav : Type :=
| MainNavMenu (page : string)
| DrawerMainNavMenu (page : string).

(** The children [Screen] mounts. *)
Record ScreenView : Type := mkScreenView {
  progressBar : option Percent;
  mainNav : MainNav;
  scrollable : bool;
  loadingOverlay : bool;
  sideNavMenu : option (nat * list ContentSection)
}.

Definition Screen (displaySize : DisplaySize) (props : ScreenProps)
  : ScreenView :=
  let shouldShowMainNav := shouldShowMainNavMenu displaySize in
  let shouldShowSideNav := shouldShowSideNavMenu displaySize in
  mkScreenView
    (scrollPercent props)
    (if shouldShowMainNav then MainNavMenu (activePage props)
     else DrawerMainNavMenu (activePage props))
    (negb (screenRendering props))
    (screenRendering props)
    (match contentSections props with
     | Some cs =>
         if shouldShowSideNav
         then Some (currentSectionIndex cs, contentSectionList cs)
         else None
     | None => None
     end).

End Rendering.

End App.

(** ** Sample pages used to exercise the statements below *)

Module Samples.

Import Legacy.

(** Three columns, the home one showing, and a nav in each of them. *)
Definition panels : list Panel :=
  [ mkPanel ["inner-col"; "home"] DisplayUnset TopUnset 300 [];
    mkPanel ["inner-col"; "about"; "hidden"] DisplayUnset TopUnset 600 [];
    mkPanel ["inner-col"; "work"; "hidden"] DisplayUnset TopUnset 450 [] ].

Definition navEls : list Nav :=
  [ mkNav ["inner-col"; "home"] [];
    mkNav ["inner-col"; "about"; "hidden"] [];
    mkNav ["inner-col"; "work"; "hidden"] [] ].

(** The page as the ready handler leaves it in a wide and in a narrow
    window. *)
Definition paneled : Page := ready panels navEls 1000 900.

Definition stacked : Page := ready panels navEls 1000 750.

(** The projects part of the page with the info view of one project open
    and at rest. *)
Definition openInfo : Projects.ProjPage :=
  Projects.mkProjPage
    (Some [Projects.mkProject "Alpha" "https://example.org/alpha"
                         (Some "2016 - 2017") (Some "An app.")])
    [Projects.mkCard "Alpha" 100 40 80 120]
    ["extra-info"] "Alpha" 0 0 [] [] [].

Definition site : Site.State := Site.mkState paneled openInfo.

(** The section list of the resolver scenario. *)
Definition sectionList : list Resolver.Section :=
  [ Resolver.mkSection "home" 0 0;
    Resolver.mkSection "about" 1 800;
    Resolver.mkSection "work" 2 1600 ].

End Samples.

(** ** The meters of the about column (legacy single-page script) *)

Module Meters.

(** A [.about .box] element. *)
Record Box : Type := mkBox {
  boxClasses : list string;
  boxDisplay : Display
}.

(** The boxes and the [#meters span] headers, the latter as their class
    lists. *)
Record State : Type := mkState {
  boxes : list Box;
  spans : list (list string)
}.

(** [attr('class').split(" ")[0]]: the first class name; it is only read
    from elements that were selected by one of their classes. *)
Definition firstClass (cl : list string) : string := nth 0 cl "".

(** [switchMeters]: the first loop over the boxes, the second over the
    headers. *)
Definition switchMeters (boxToShow : string) (m : State) : State :=
  mkState
    (map (fun b =>
            if hasClass boxToShow (boxClasses b)
            then mkBox (removeClass "hidden" (boxClasses b)) DisplayBlock
            else mkBox (addClass "hidden" (boxClasses b)) DisplayNone)
         (boxes m))
    (map (fun cl =>
            if hasClass boxToShow cl
            then addClass "active" (removeClass "inactive" cl)
            else addClass "inactive" (removeClass "active" cl))
         (spans m)).

(** The click handler of header [k]. *)
Definition spanClick (k : nat) (m : State) : State :=
  match nth_error (spans m) k with
  | None => m
  | Some cl =>
      if hasClass "inactive" cl then
        let choice := firstClass cl in
        switchMeters choice m
      else m
  end.

(** The rotation in the click handler of the boxes. *)
Definition nextMeters (curr : string) : string :=
  if curr =? "skills" then "qualities"
  else if curr =? "qualities" then "interests"
  else "skills".

(** The click handler of a [.box] element with the given class list. *)
Definition boxClick (clicked : list string) (m : State) : State :=
  let curr := firstClass clicked in
  let next := nextMeters curr in
  switchMeters next m.

End Meters.

(** ** The logo (legacy single-page script) *)

Module Logo.

(** The [#logo-holder img] element: its classes, its inline [transform]
    and whether the closest [.right-side] carries the class [mob]. *)
Record Img : Type := mkImg {
  imgClasses : list string;
  transform : string;
  inMob : bool
}.

(** The handler given to [hover]; jQuery runs it both when the pointer
    enters and when it leaves. *)
Definition hover (i : Img) : Img :=
  let t := "" in
  let t := if negb (inMob i) then (t ++ "translate(-50%, -50%)")%string
           else t in
  if hasClass "hovering" (imgClasses i) then
    mkImg (removeClass "hovering" (imgClasses i))
          (t ++ " rotateY(360deg)")%string (inMob i)
  else
    mkImg (addClass "hovering" (imgClasses i))
          (t ++ " rotateY(180deg)")%string (inMob i).

End Logo.

(** ** The project list and the overlay of the projects script *)

Module Catalog.

(** An entry of [projects.json] with the fields the list and the overlay
    read. *)
Record Entry : Type := mkEntry {
  name : string;
  logo : string;
  short : string;
  type : string;
  screen : string;
  caption : string
}.

(** The double quote and the line feed of the markup. *)
Definition dq : string := String (ascii_of_nat 34) EmptyString.

Definition nl : string := String (ascii_of_nat 10) EmptyString.

(** The markup [addProjects] writes for one project. *)
Definition cardMarkup (curr : Entry) : string :=
  (("<li class='project-card'>" ++ nl)
   ++ ("<div>" ++ nl)
   ++ "<span class='project-img' style='background-image:url(" ++ dq
   ++ logo curr
   ++ dq ++ ");'></span>" ++ nl
   ++ ("<div>" ++ nl)
   ++ ("<h1>" ++ name curr ++ "</h1>" ++ nl)
   ++ ("<span>" ++ short curr ++ "</span>" ++ nl)
   ++ ("</div>" ++ nl ++ "</div>" ++ nl ++ "</div>" ++ nl ++ "</li>" ++ nl)
  )%string.

(** [addProjects]: the markup put into [.projects-list.current] and into
    [.projects-list.old].  [None] is the [TypeError] of reading
    [projData.projects] while the JSON has not arrived. *)
Definition addProjects (projData : option (list Entry))
  : option (string * string) :=
  match projData with
  | None => None
  | Some projects =>
      Some (fold_left
              (fun lists curr =>
                 let output := cardMarkup curr in
                 if type curr =? "current"
                 then ((fst lists ++ output)%string, snd lists)
                 else (fst lists, (snd lists ++ output)%string))
              projects ("", ""))
  end.

(** What the two pointer handlers of the project cards look at and change:
    the classes of [.extra-info], the project data, and of the overlay
    container its background image, its caption and its effects queue of
    opacity animations. *)
Record Overlay : Type := mkOverlay {
  infoClasses : list string;
  projData : option (list Entry);
  backgroundImage : option string;
  overlayCaption : option string;
  overlayFx : list Q
}.

(** A handler either returns or throws; both leave a page behind. *)
Inductive Outcome : Type :=
| Done (o : Overlay)
| Threw (o : Overlay).

(** [$('.extra-info').not('.hidden').length === 0] *)
Definition infoHidden (o : Overlay) : bool := hasClass "hidden" (infoClasses o).

(** The [mouseenter] handler of a card whose [h1] reads [head]:
    [dest.stop(true)] empties the effects queue before the project data is
    read, every entry of that name sets the background and the caption,
    and the fade to full opacity is queued last. *)
Definition mouseenter (head : string) (o : Overlay) : Outcome :=
  if infoHidden o then
    let o1 := mkOverlay (infoClasses o) (projData o) (backgroundImage o)
                        (overlayCaption o) [] in
    match projData o1 with
    | None => Threw o1
    | Some projects =>
        let o2 :=
          fold_left
            (fun d curr =>
               if head =? name curr then
                 mkOverlay (infoClasses d) (projData d)
                           (Some ("url(" ++ dq ++ screen curr ++ dq ++ ")")%string)
                           (Some (caption curr)) (overlayFx d)
               else d)
            projects o1 in
        Done (mkOverlay (infoClasses o2) (projData o2) (backgroundImage o2)
                        (overlayCaption o2) (overlayFx o2 ++ [1]))
    end
  else Done o.

(** The [mouseleave] handler. *)
Definition mouseleave (o : Overlay) : Overlay :=
  if infoHidden o then
    mkOverlay (infoClasses o) (projData o) (backgroundImage o)
              (overlayCaption o) (overlayFx o ++ [0])
  else o.

End Catalog.

(** ** Shapes of columns used in the invariants *)

Module Shapes.

Import Legacy.

(** What every column looks like on a stacked page. *)
Definition stackedCol (p : Panel) : Prop :=
  is_ "hidden" p = false /\ display p = DisplayBlock /\ is_ "mobile" p = true.

(** A column that is showing and one that is put away for good. *)
Definition shown (p : Panel) : Prop :=
  is_ "hidden" p = false /\ display p = DisplayBlock.

Definition putAway (p : Panel) : Prop :=
  is_ "hidden" p = true /\ display p = DisplayNone.

End Shapes.

(** ** More sample pages *)

Module MoreSamples.

(** The three meter boxes with the skills showing, and their headers. *)
Definition meters : Meters.State :=
  Meters.mkState
    [ Meters.mkBox ["skills"; "box"] DisplayBlock;
      Meters.mkBox ["qualities"; "box"; "hidden"] DisplayNone;
      Meters.mkBox ["interests"; "box"; "hidden"] DisplayNone ]
    [ ["skills"; "active"];
      ["qualities"; "inactive"];
      ["interests"; "inactive"] ].

Definition logo : Logo.Img := Logo.mkImg ["logo"] "" false.

Definition entries : list Catalog.Entry :=
  [ Catalog.mkEntry "Alpha" "img/alpha.png" "First" "current"
                    "img/alpha-screen.png" "Alpha in use";
    Catalog.mkEntry "Beta" "img/beta.png" "Second" "old"
                    "img/beta-screen.png" "Beta in use";
    Catalog.mkEntry "Gamma" "img/gamma.png" "Third" "current"
                    "img/gamma-screen.png" "Gamma in use" ].

(** The overlay with the info view closed and a fade still queued. *)
Definition overlay : Catalog.Overlay :=
  Catalog.mkOverlay ["extra-info"; "hidden"] (Some entries) None None [0].

(** A page whose second column has no second class, in a wide window. *)
Definition namelessPanels : list Legacy.Panel :=
  [ Legacy.mkPanel ["inner-col"; "home"] DisplayUnset TopUnset 300 [];
    Legacy.mkPanel ["inner-col"] DisplayUnset TopUnset 600 [] ].

Definition namelessNavs : list Legacy.Nav :=
  [ Legacy.mkNav ["inner-col"; "home"] [];
    Legacy.mkNav ["inner-col"] [] ].

Definition nameless : Legacy.Page :=
  Legacy.ready namelessPanels namelessNavs 1000 900.


(** The projects part of the page with the info view closed. *)
Definition closedInfo : Projects.ProjPage :=
  Projects.mkProjPage
    (Some [Projects.mkProject "Alpha" "https://example.org/alpha"
                         (Some "2016 - 2017") (Some "An app.")])
    [Projects.mkCard "Alpha" 100 40 80 120]
    ["extra-info"; "hidden"] "" 0 0 [] [] [].

End MoreSamples.

(** * Properties *)

(** ** Class lists *)

Lemma hasClass_true_iff (c : string) (cl : list string) :
  hasClass c cl = true <-> In c cl.
Proof.
  unfold hasClass. rewrite existsb_exists. split.
  - intros [x [Hin Heq]]. apply String.eqb_eq in Heq. now subst.
  - intros Hin. exists c. split; [assumption | apply String.eqb_refl].
Qed.

Lemma hasClass_app (c : string) (l1 l2 : list string) :
  hasClass c (l1 ++ l2) = (hasClass c l1 || hasClass c l2)%bool.
Proof. unfold hasClass. apply existsb_app. Qed.

Lemma hasClass_removeClass_same (c : string) (cl : list string) :
  hasClass c (removeClass c cl) = false.
Proof.
  induction cl as [|x cl IH]; simpl; [reflexivity|].
  destruct (String.eqb c x) eqn:E; simpl; [assumption|].
  now rewrite E.
Qed.

Lemma hasClass_removeClass_other (c d : string) (cl : list string) :
  c <> d -> hasClass c (removeClass d cl) = hasClass c cl.
Proof.
  intros Hne. induction cl as [|x cl IH]; simpl; [reflexivity|].
  destruct (String.eqb d x) eqn:E; simpl.
  - apply String.eqb_eq in E. subst x.
    apply String.eqb_neq in Hne. now rewrite Hne.
  - now rewrite IH.
Qed.

Lemma hasClass_addClass_same (c : string) (cl : list string) :
  hasClass c (addClass c cl) = true.
Proof.
  unfold addClass. destruct (hasClass c cl) eqn:E; [assumption|].
  rewrite hasClass_app, E. simpl. now rewrite String.eqb_refl.
Qed.

Lemma hasClass_addClass_other (c d : string) (cl : list string) :
  c <> d -> hasClass c (addClass d cl) = hasClass c cl.
Proof.
  intros Hne. unfold addClass. destruct (hasClass d cl); [reflexivity|].
  rewrite hasClass_app. simpl.
  apply String.eqb_neq in Hne. rewrite Hne. now rewrite !orb_false_r.
Qed.

(** ** The breakpoint state machine *)

Section Breakpoints.

Import Legacy.

Lemma checkWidths_mobile (w : Z) (st : Page) :
  mobile (checkWidths w st) = (w <=? MOBILE_SIZE)%Z.
Proof.
  unfold checkWidths.
  destruct (w <=? MOBILE_SIZE)%Z eqn:Hle, (mobile st) eqn:Hm; simpl;
    try reflexivity.
  - assert (Hgt : (w >? MOBILE_SIZE)%Z = false) by lia.
    rewrite Hgt. simpl. exact Hm.
  - assert (Hgt : (w >? MOBILE_SIZE)%Z = true) by lia.
    rewrite Hgt. reflexivity.
  - assert (Hgt : (w >? MOBILE_SIZE)%Z = true) by lia.
    rewrite Hgt. simpl. exact Hm.
Qed.

(** C10: whatever the layout was, after [checkWidths] the layout is the
    stacked (mobile) one exactly when the window width is at most 800, so a
    width of exactly 800 is stacked, anything above is paneled, and each
    width gets one mode. *)
Theorem C10_width_at_threshold_is_stacked :
  forall (w : Z) (st : Page),
    mobile (checkWidths w st) = (w <=? 800)%Z
    /\ mobile (checkWidths 800 st) = true
    /\ mobile (checkWidths 801 st) = false.
Proof.
  intros w st. rewrite !checkWidths_mobile. repeat split.
Qed.

Lemma checkWidths_same_tier (w : Z) (st : Page) :
  (w <=? MOBILE_SIZE)%Z = mobile st -> checkWidths w st = st.
Proof.
  intros H. unfold checkWidths. rewrite <- H.
  destruct (w <=? MOBILE_SIZE)%Z eqn:Hle; simpl.
  - assert (Hgt : (w >? MOBILE_SIZE)%Z = false) by lia.
    now rewrite Hgt.
  - now rewrite andb_false_r.
Qed.

Lemma is_home_stackCol (p : Panel) :
  is_ "home" (stackCol p) = is_ "home" p.
Proof.
  unfold is_, stackCol. simpl.
  rewrite hasClass_addClass_other, hasClass_removeClass_other;
    [reflexivity | discriminate | discriminate].
Qed.

Lemma is_home_unstackCol (p : Panel) :
  is_ "home" (unstackCol p) = is_ "home" p.
Proof.
  unfold is_, unstackCol. simpl.
  rewrite hasClass_addClass_other, hasClass_removeClass_other;
    [reflexivity | discriminate | discriminate].
Qed.

(** What stacking and unstacking makes of one column. *)
Lemma stack_then_unstack (st : Page) :
  mobile st = false ->
  cols (resizes [900; 750; 900]%Z st)
  = map (fun p => if is_ "home" p then resetHome (stackCol p)
                  else unstackCol (stackCol p))
        (cols st).
Proof.
  intros Hm. simpl resizes.
  assert (H0 : checkWidths 900 st = st)
    by (apply checkWidths_same_tier; now rewrite Hm).
  rewrite H0. unfold checkWidths at 2. rewrite Hm. simpl.
  unfold checkWidths. simpl. rewrite !map_map.
  apply map_ext. intros p. unfold all, not_.
  rewrite is_home_stackCol.
  destruct (is_ "home" p) eqn:E; simpl.
  - now rewrite is_home_stackCol, E.
  - now rewrite is_home_unstackCol, is_home_stackCol, E.
Qed.

(** C5: [checkWidths] leaves the whole page untouched when the width falls
    in the tier the [mobile] flag already records; from a paneled page the
    widths 900, 750, 900 cause exactly two switches, to stacked and back;
    and afterwards every home column sits at [top: 50%], shown and without
    the [mobile] class. *)
Theorem C5_breakpoint_switches_only_on_tier_change :
  forall st : Page,
    mobile st = false ->
    (forall (s : Page) (w : Z),
        (w <=? MOBILE_SIZE)%Z = mobile s -> checkWidths w s = s)
    /\ tierTransitions [900; 750; 900]%Z st = [(false, true); (true, false)]
    /\ mobile (resizes [900; 750; 900]%Z st) = false
    /\ (forall p : Panel,
          In p (cols (resizes [900; 750; 900]%Z st)) ->
          is_ "home" p = true ->
          top p = TopPercent 50
          /\ display p = DisplayBlock
          /\ is_ "mobile" p = false
          /\ is_ "hidden" p = false).
Proof.
  intros st Hm. split; [intros s w; apply checkWidths_same_tier|].
  assert (H0 : checkWidths 900 st = st)
    by (apply checkWidths_same_tier; now rewrite Hm).
  split.
  { simpl tierTransitions. rewrite H0, !checkWidths_mobile, Hm. reflexivity. }
  split.
  { simpl resizes. now rewrite checkWidths_mobile. }
  intros p Hin Hhome.
  rewrite (stack_then_unstack st Hm) in Hin.
  apply in_map_iff in Hin. destruct Hin as [q [Hq _]]. subst p.
  destruct (is_ "home" q) eqn:E.
  - unfold is_, resetHome, stackCol. simpl. repeat split.
    + apply hasClass_removeClass_same.
    + rewrite hasClass_removeClass_other by discriminate.
      rewrite hasClass_addClass_other by discriminate.
      apply hasClass_removeClass_same.
  - rewrite is_home_unstackCol, is_home_stackCol, E in Hhome. discriminate.
Qed.

(** C5 at the sample page: the hypotheses hold there. *)
Lemma C5_witness :
  mobile Samples.paneled = false
  /\ checkWidths 900 Samples.paneled = Samples.paneled
  /\ tierTransitions [900; 750; 900]%Z Samples.paneled
     = [(false, true); (true, false)]
  /\ top (hd (mkPanel [] DisplayUnset TopUnset 0 [])
             (cols (resizes [900; 750; 900]%Z Samples.paneled)))
     = TopPercent 50.
Proof.
  destruct (C5_breakpoint_switches_only_on_tier_change
              Samples.paneled eq_refl) as [Hnoop [Htr [_ Hhome]]].
  split; [reflexivity|].
  split; [apply Hnoop; reflexivity|].
  split; [exact Htr|].
  apply Hhome; [left; reflexivity | reflexivity].
Defined.

End Breakpoints.

(** ** Transitions *)

Section Transitions.

Import Legacy.

(** C8: on a stacked (mobile) page a transition request changes nothing:
    [showSection] returns the page as it got it, whether it is called
    directly, from the intro heading or from a nav item, so no column
    changes its classes, [display] or [top], and nothing is scheduled. *)
Theorem C8_stacked_transition_is_noop :
  forall (st : Page) (sectionName dir : string),
    mobile st = true ->
    showSection sectionName dir st = st
    /\ introClick st = st
    /\ (forall n k : nat, navItemClick n k st = st).
Proof.
  intros st sectionName dir Hm.
  assert (Hshow : forall s d, showSection s d st = st).
  { intros s d. unfold showSection. now rewrite Hm. }
  split; [apply Hshow|]. split; [apply Hshow|].
  intros n k. unfold navItemClick.
  destruct (nth_error (navs st) n) as [nav|]; [|reflexivity].
  destruct (nth_error (navItems nav) k) as [it|]; [|reflexivity].
  destruct (hasClass "active" (itemClasses it)); [reflexivity|apply Hshow].
Qed.

(** C8 at the sample page in a 750 pixel window. *)
Lemma C8_witness :
  mobile Samples.stacked = true
  /\ showSection "about" "down" Samples.stacked = Samples.stacked
  /\ navItemClick 0 1 Samples.stacked = Samples.stacked.
Proof.
  destruct (C8_stacked_transition_is_noop Samples.stacked "about" "down"
              eq_refl) as [Hshow [_ Hnav]].
  split; [reflexivity|]. split; [exact Hshow | apply Hnav].
Defined.

(** One column through the three loops of [showSection]. *)
Lemma showSection_col (st : Page) (sectionName dir : string) (i : nat)
  (p : Panel) :
  mobile st = false ->
  nth_error (cols st) i = Some p ->
  nth_error (cols (showSection sectionName dir st)) i
  = Some (let p1 := if not_ "hidden" p
                    then slideOut dir (documentHeight st) p else p in
          let p2 := if is_ sectionName p1
                    then withClasses (removeClass "hidden") p1 else p1 in
          if not_ "hidden" p2 then slideIn dir (documentHeight st) p2 else p2).
Proof.
  intros Hm Hp. unfold showSection. rewrite Hm. simpl.
  rewrite !nth_error_map, Hp. reflexivity.
Qed.

Lemma is_slideOut (c dir : string) (d : Q) (p : Panel) :
  c <> "hidden" -> is_ c (slideOut dir d p) = is_ c p.
Proof.
  intros Hc. unfold is_, slideOut. simpl.
  now apply hasClass_addClass_other.
Qed.

Lemma is_hidden_unhide (p : Panel) :
  is_ "hidden" (withClasses (removeClass "hidden") p) = false.
Proof. unfold is_. simpl. apply hasClass_removeClass_same. Qed.

Lemma is_hidden_slideOut (dir : string) (d : Q) (p : Panel) :
  is_ "hidden" (slideOut dir d p) = true.
Proof. unfold is_, slideOut. simpl. apply hasClass_addClass_same. Qed.

(** The four cases of a column in [showSection], by whether it was hidden
    and whether it is the one asked for. *)
Lemma showSection_col_cases (st : Page) (sectionName dir : string) (i : nat)
  (p : Panel) :
  mobile st = false ->
  sectionName <> "hidden" ->
  nth_error (cols st) i = Some p ->
  nth_error (cols (showSection sectionName dir st)) i
  = Some (match is_ "hidden" p, is_ sectionName p with
          | false, true =>
              slideIn dir (documentHeight st)
                (withClasses (removeClass "hidden")
                   (slideOut dir (documentHeight st) p))
          | false, false => slideOut dir (documentHeight st) p
          | true, true =>
              slideIn dir (documentHeight st)
                (withClasses (removeClass "hidden") p)
          | true, false => p
          end).
Proof.
  intros Hm Hname Hp.
  rewrite (showSection_col st sectionName dir i p Hm Hp).
  f_equal. cbv zeta. unfold not_.
  destruct (is_ "hidden" p) eqn:Eh; cbn [negb].
  - destruct (is_ sectionName p) eqn:Et.
    + now rewrite is_hidden_unhide.
    + now rewrite Eh.
  - rewrite is_slideOut by assumption.
    destruct (is_ sectionName p) eqn:Et.
    + now rewrite is_hidden_unhide.
    + now rewrite is_hidden_slideOut.
Qed.

Lemma twoThirds_spec (h : Q) : twoThirds h == (2 # 3) * h.
Proof. unfold twoThirds. field. Qed.

(** C2, as the code has it: a column that is showing is queued an animation
    to [-(2/3)h] when the direction is toward the end ("down") and to
    [documentHeight + (2/3)h] when it is toward the start ("up"); the
    column that comes in is first put on the other side, at
    [documentHeight + (2/3)h] toward the end and at [-(2/3)h] toward the
    start, is made [display: block] and is then queued an animation to
    [top: 50%]. *)
Theorem C2_outgoing_and_incoming_geometry :
  forall (st : Page) (sectionName dir : string) (i : nat) (p : Panel),
    mobile st = false ->
    sectionName <> "hidden" ->
    nth_error (cols st) i = Some p ->
    exists p' : Panel,
      nth_error (cols (showSection sectionName dir st)) i = Some p'
      /\ (is_ "hidden" p = false ->
          exists rest,
            fx p' = fx p ++ mkAnim (moveOut dir (documentHeight st)
                                            (outerHeight p)) "3s" :: rest)
      /\ (is_ sectionName p = true ->
          top p' = moveIn dir (documentHeight st) (outerHeight p)
          /\ display p' = DisplayBlock
          /\ is_ "hidden" p' = false
          /\ exists before,
               fx p' = before ++ [mkAnim (TopPercent 50) "3s"])
      /\ moveOut towardEnd (documentHeight st) (outerHeight p)
         = TopPx (- twoThirds (outerHeight p))
      /\ moveOut towardStart (documentHeight st) (outerHeight p)
         = TopPx (documentHeight st + twoThirds (outerHeight p))
      /\ moveIn towardEnd (documentHeight st) (outerHeight p)
         = TopPx (documentHeight st + twoThirds (outerHeight p))
      /\ moveIn towardStart (documentHeight st) (outerHeight p)
         = TopPx (- twoThirds (outerHeight p))
      /\ twoThirds (outerHeight p) == (2 # 3) * outerHeight p.
Proof.
  intros st sectionName dir i p Hm Hname Hp.
  eexists.
  split; [apply (showSection_col_cases st sectionName dir i p Hm Hname Hp)|].
  split; [|split].
  - intros Hvis. rewrite Hvis.
    destruct (is_ sectionName p); simpl; eexists;
      [rewrite <- app_assoc|]; reflexivity.
  - intros Ht. rewrite Ht.
    destruct (is_ "hidden" p); simpl;
      (repeat split; [apply is_hidden_unhide | eexists; reflexivity]).
  - repeat split. apply twoThirds_spec.
Qed.

(** C2 at the sample page: the home column is showing and is also the
    one asked for. *)
Lemma C2_witness :
  exists p' : Panel,
    nth_error (cols (showSection "home" "down" Samples.paneled)) 0 = Some p'
    /\ (exists rest,
          fx p' = [] ++ mkAnim (moveOut "down" 1000 300) "3s" :: rest)
    /\ top p' = moveIn "down" 1000 300
    /\ display p' = DisplayBlock.
Proof.
  destruct (C2_outgoing_and_incoming_geometry
              Samples.paneled "home" "down" 0
              (mkPanel ["inner-col"; "home"] DisplayUnset TopUnset 300 []))
    as [p' [Hnth [Hout [Hin _]]]];
    [reflexivity | discriminate | reflexivity |].
  exists p'. split; [exact Hnth|].
  split; [apply Hout; reflexivity|].
  destruct (Hin eq_refl) as [Htop [Hdisp _]].
  split; assumption.
Defined.

(** C2 as the claim words it fails: moving from the first section (home,
    position 0) to the second (about, position 1) is a move toward the end,
    and the home column, 300 high in a 1000 high document, is animated to
    [-200px], not to [1000 + (2/3) 300 = 1200px]. *)
Lemma C2_counterexample :
  (indexOf (sections Samples.paneled) "about"
   > indexOf (sections Samples.paneled) "home")%Z
  /\ exists (p' : Panel) (q : Q),
       nth_error (cols (navItemClick 0 1 Samples.paneled)) 0 = Some p'
       /\ fx p' = [mkAnim (TopPx q) "3s"]
       /\ q == - (200)
       /\ ~ q == documentHeight Samples.paneled + (2 # 3) * 300.
Proof.
  split; [reflexivity|].
  eexists. eexists. split; [reflexivity|].
  split; [reflexivity|].
  split; [reflexivity|].
  intros H. vm_compute in H. discriminate H.
Qed.

(** *** Timers *)

Lemma showSection_timers (st : Page) (sectionName dir : string) :
  mobile st = false ->
  timers (showSection sectionName dir st)
  = timers st ++ [mkTimer hideHiddenCols 500].
Proof. intros Hm. unfold showSection. now rewrite Hm. Qed.

Lemma showSection_mobile (st : Page) (sectionName dir : string) :
  mobile (showSection sectionName dir st) = mobile st.
Proof.
  unfold showSection. destruct (mobile st) eqn:Hm; simpl; congruence.
Qed.

(** What a transition makes of the classes and the [display] of a column. *)
Lemma showSection_col_props (st : Page) (sectionName dir : string) (i : nat)
  (p : Panel) :
  mobile st = false ->
  sectionName <> "hidden" ->
  nth_error (cols st) i = Some p ->
  exists p' : Panel,
    nth_error (cols (showSection sectionName dir st)) i = Some p'
    /\ (forall c, c <> "hidden" -> is_ c p' = is_ c p)
    /\ is_ "hidden" p' = negb (is_ sectionName p)
    /\ (is_ sectionName p = true -> display p' = DisplayBlock).
Proof.
  intros Hm Hname Hp. eexists.
  split; [apply (showSection_col_cases st sectionName dir i p Hm Hname Hp)|].
  destruct (is_ "hidden" p) eqn:Eh, (is_ sectionName p) eqn:Et; simpl.
  - split; [|split; [apply is_hidden_unhide | reflexivity]].
    intros c Hc. unfold is_. simpl. now apply hasClass_removeClass_other.
  - split; [reflexivity|]. split; [exact Eh | discriminate].
  - split; [|split; [apply is_hidden_unhide | reflexivity]].
    intros c Hc. unfold is_. simpl.
    rewrite hasClass_removeClass_other by assumption.
    now apply hasClass_addClass_other.
  - split; [|split; [apply is_hidden_slideOut | discriminate]].
    intros c Hc. now apply is_slideOut.
Qed.

(** The timer callback on one column. *)
Lemma runCallback_col (cb : TimerCallback) (st : Page) (i : nat) (p : Panel) :
  nth_error (cols st) i = Some p ->
  nth_error (cols (runCallback cb st)) i
  = Some (if is_ "hidden" p then cssDisplay DisplayNone p else p).
Proof.
  intros Hp. destruct cb. simpl. now rewrite nth_error_map, Hp.
Qed.

Lemma fireTimer_col (k : nat) (st : Page) (i : nat) (p : Panel) :
  nth_error (cols st) i = Some p ->
  nth_error (cols (fireTimer k st)) i = Some p
  \/ nth_error (cols (fireTimer k st)) i
     = Some (if is_ "hidden" p then cssDisplay DisplayNone p else p).
Proof.
  intros Hp. unfold fireTimer.
  destruct (nth_error (timers st) k) as [t|]; [right|left; assumption].
  now apply runCallback_col.
Qed.

Lemma fireTimer_head (st : Page) (t : Timer) (ts : list Timer) :
  timers st = t :: ts ->
  fireTimer 0 st = runCallback (callback t) (setTimers ts st).
Proof. intros H. unfold fireTimer. rewrite H. reflexivity. Qed.

(** Once every pending timer has fired, and there was at least one, each
    hidden column has [display: none] and the others are as they were. *)
Lemma settle_spec (ts : list Timer) (st : Page) :
  timers st = ts -> ts <> [] ->
  timers (settle st) = []
  /\ forall i p,
       nth_error (cols st) i = Some p ->
       nth_error (cols (settle st)) i
       = Some (if is_ "hidden" p then cssDisplay DisplayNone p else p).
Proof.
  unfold settle. intros Hts. rewrite Hts.
  revert st Hts. induction ts as [|t ts IH]; intros st Hts Hne;
    [contradiction|].
  simpl. rewrite (fireTimer_head st t ts Hts).
  destruct ts as [|t' ts'].
  - simpl. split; [destruct t as [[] d]; reflexivity|].
    intros i p Hp. apply runCallback_col. exact Hp.
  - set (st' := runCallback (callback t) (setTimers (t' :: ts') st)).
    assert (Hts' : timers st' = t' :: ts')
      by (unfold st'; destruct t as [[] d]; reflexivity).
    destruct (IH st' Hts') as [Hnil Hcols]; [discriminate|].
    split; [exact Hnil|].
    intros i p Hp.
    assert (Hp' : nth_error (cols st') i
                  = Some (if is_ "hidden" p then cssDisplay DisplayNone p
                          else p))
      by (unfold st'; now apply runCallback_col).
    rewrite (Hcols i _ Hp').
    destruct (is_ "hidden" p) eqn:Eh; [|now rewrite Eh].
    unfold is_ in *. simpl. now rewrite Eh.
Qed.

(** C3, as the code has it: a second transition request does not cancel the
    timer of the first, both stay pending; a timer that fires only touches
    columns that carry the [hidden] class at that moment, so it leaves every
    column the newer transition made visible exactly as it is; and once all
    timers have fired, the columns of the section asked for last are shown
    ([display: block], not hidden) and all others are hidden with
    [display: none]. *)
Theorem C3_stale_timer_stays_pending_but_spares_visible :
  forall (st : Page) (c dirC b dirB : string),
    mobile st = false ->
    c <> "hidden" ->
    b <> "hidden" ->
    let st2 := showSection b dirB (showSection c dirC st) in
    timers st2
    = timers st ++ [mkTimer hideHiddenCols 500; mkTimer hideHiddenCols 500]
    /\ (forall k i p,
          nth_error (cols st2) i = Some p ->
          is_ "hidden" p = false ->
          nth_error (cols (fireTimer k st2)) i = Some p)
    /\ timers (settle st2) = []
    /\ (forall i p,
          nth_error (cols st) i = Some p ->
          exists p' : Panel,
            nth_error (cols (settle st2)) i = Some p'
            /\ is_ b p' = is_ b p
            /\ is_ "hidden" p' = negb (is_ b p)
            /\ display p' = if is_ b p then DisplayBlock else DisplayNone).
Proof.
  intros st c dirC b dirB Hm Hc Hb st2.
  assert (Hm1 : mobile (showSection c dirC st) = false)
    by now rewrite showSection_mobile.
  assert (Hts : timers st2
                = timers st
                  ++ [mkTimer hideHiddenCols 500; mkTimer hideHiddenCols 500]).
  { unfold st2. rewrite showSection_timers by assumption.
    rewrite showSection_timers by assumption.
    now rewrite <- app_assoc. }
  split; [exact Hts|]. split.
  { intros k i p Hp Hvis.
    destruct (fireTimer_col k st2 i p Hp) as [H|H]; [exact H|].
    now rewrite Hvis in H. }
  destruct (settle_spec _ st2 Hts) as [Hnil Hcols].
  { intros H. apply app_eq_nil in H. destruct H as [_ H]. discriminate. }
  split; [exact Hnil|].
  intros i p Hp.
  destruct (showSection_col_props st c dirC i p Hm Hc Hp)
    as [p1 [Hp1 [Hcls1 _]]].
  destruct (showSection_col_props _ b dirB i p1 Hm1 Hb Hp1)
    as [p2 [Hp2 [Hcls2 [Hhid2 Hdisp2]]]].
  fold st2 in Hp2. rewrite (Hcls1 b Hb) in Hhid2, Hdisp2.
  eexists. split; [apply (Hcols i p2 Hp2)|].
  rewrite Hhid2.
  destruct (is_ b p) eqn:Eb; simpl.
  - rewrite (Hcls2 b Hb), (Hcls1 b Hb), Eb, Hhid2. auto.
  - unfold is_ in *. simpl. rewrite (Hcls2 b Hb), (Hcls1 b Hb), Eb, Hhid2. auto.
Qed.

(** C3 at the sample page: home to work, then home to about. *)
Lemma C3_witness :
  mobile Samples.paneled = false
  /\ timers (showSection "about" "down"
               (showSection "work" "down" Samples.paneled))
     = [] ++ [mkTimer hideHiddenCols 500; mkTimer hideHiddenCols 500]
  /\ exists p' : Panel,
       nth_error (cols (settle (showSection "about" "down"
                                  (showSection "work" "down" Samples.paneled))))
                 1 = Some p'
       /\ is_ "hidden" p' = false /\ display p' = DisplayBlock.
Proof.
  destruct (C3_stale_timer_stays_pending_but_spares_visible
              Samples.paneled "work" "down" "about" "down" eq_refl)
    as [Hts [_ [_ Hfinal]]]; [discriminate | discriminate |].
  split; [reflexivity|]. split; [exact Hts|].
  destruct (Hfinal 1%nat
              (mkPanel ["inner-col"; "about"; "hidden"] DisplayUnset TopUnset
                       600 []) eq_refl)
    as [p' [Hnth [_ [Hhid Hdisp]]]].
  exists p'. split; [exact Hnth|]. split; [exact Hhid | exact Hdisp].
Defined.

(** C3 as the claim words it fails: after the requests home to work and
    then home to about, issued before any timer fired, the timer of the
    first request has not been cancelled; it is still pending next to the
    timer of the second, and when it fires it still runs its callback (it
    sets [display: none] on the home column). *)
Lemma C3_counterexample :
  let st1 := navItemClick 0 2 Samples.paneled in
  let st2 := navItemClick 0 1 st1 in
  timers st1 = [mkTimer hideHiddenCols 500]
  /\ timers st2 = [mkTimer hideHiddenCols 500; mkTimer hideHiddenCols 500]
  /\ option_map display (nth_error (cols st2) 0) = Some DisplayUnset
  /\ option_map display (nth_error (cols (fireTimer 0 st2)) 0)
     = Some DisplayNone
  /\ timers (fireTimer 0 st2) = [mkTimer hideHiddenCols 500].
Proof. repeat split. Qed.

(** *** The nav items and the direction of a transition *)

Lemma append_empty_r (s : string) : (s ++ "")%string = s.
Proof. induction s as [|a s IH]; simpl; [reflexivity | now rewrite IH]. Qed.

Lemma strictEq_spec (a b : Value) : strictEq a b = true <-> a = b.
Proof.
  destruct a as [|s], b as [|t]; simpl; split; intros H;
    try reflexivity; try discriminate.
  - apply String.eqb_eq in H. now subst.
  - injection H as ->. apply String.eqb_refl.
Qed.

Lemma indexOf_nth (l : list Value) (k : nat) (x : Value) :
  NoDup l -> nth_error l k = Some x -> indexOf l x = Z.of_nat k.
Proof.
  revert k. induction l as [|y l IH]; intros k Hnd Hk.
  - destruct k; discriminate.
  - inversion Hnd as [|y' l' Hnotin Hnd']; subst.
    destruct k as [|k]; simpl in *.
    + injection Hk as ->.
      now rewrite (proj2 (strictEq_spec x x) eq_refl).
    + assert (Hin : In x l) by (eapply nth_error_In; eassumption).
      destruct (strictEq y x) eqn:E.
      * apply strictEq_spec in E. subst. contradiction.
      * rewrite (IH k Hnd' Hk).
        destruct (Z.of_nat k <? 0)%Z eqn:Hlt; lia.
Qed.

Lemma handle_navs_sections (e : Event) (st : Page) :
  navs (handle e st) = navs st /\ sections (handle e st) = sections st.
Proof.
  assert (Hcw : forall w s, navs (checkWidths w s) = navs s
                            /\ sections (checkWidths w s) = sections s).
  { intros w s. unfold checkWidths.
    destruct ((w <=? MOBILE_SIZE)%Z && negb (mobile s))%bool;
      [split; reflexivity|].
    destruct ((w >? MOBILE_SIZE)%Z && mobile s)%bool; split; reflexivity. }
  assert (Hss : forall a b s, navs (showSection a b s) = navs s
                              /\ sections (showSection a b s) = sections s).
  { intros a b s. unfold showSection.
    destruct (negb (mobile s)); split; reflexivity. }
  destruct e as [w| |n k|k]; simpl.
  - apply Hcw.
  - apply Hss.
  - unfold navItemClick.
    destruct (nth_error (navs st) n) as [nav|]; [|split; reflexivity].
    destruct (nth_error (navItems nav) k) as [it|]; [|split; reflexivity].
    destruct (hasClass "active" (itemClasses it)); [split; reflexivity|].
    apply Hss.
  - unfold fireTimer.
    destruct (nth_error (timers st) k) as [t|]; [|split; reflexivity].
    destruct (callback t). split; reflexivity.
Qed.

Lemma run_navs_sections (es : list Event) (st : Page) :
  navs (run es st) = navs st /\ sections (run es st) = sections st.
Proof.
  unfold run. revert st. induction es as [|e es IH]; intros st; simpl.
  - split; reflexivity.
  - destruct (IH (handle e st)) as [Hn Hs].
    destruct (handle_navs_sections e st) as [Hn' Hs'].
    split; congruence.
Qed.

Section NavItems.

Variable names : list string.
Variable from : string.
Hypothesis names_nodup : NoDup names.
Hypothesis no_nav_item : ~ In "nav-item" names.
Hypothesis no_active : ~ In "active" names.
Hypothesis from_in : In from names.

Lemma item_active (nm : string) :
  In nm names ->
  hasClass "active" (itemClasses (markActive from (newItem nm)))
  = (from =? nm).
Proof.
  intros Hnm. unfold markActive, newItem.
  cbn [itemClasses hasClass existsb].
  assert (Hf : (from =? "nav-item") = false).
  { apply String.eqb_neq. intros ->. contradiction. }
  assert (Ha : ("active" =? nm) = false).
  { apply String.eqb_neq. intros <-. contradiction. }
  rewrite Hf. cbn [orb]. rewrite orb_false_r.
  destruct (from =? nm) eqn:E.
  - cbn [itemClasses]. apply hasClass_addClass_same.
  - cbn [itemClasses hasClass existsb]. rewrite Ha. reflexivity.
Qed.

Lemma item_secondClass (nm : string) :
  secondClass (itemClasses (markActive from (newItem nm))) = nm.
Proof.
  unfold markActive, newItem.
  destruct (hasClass from (itemClasses (mkNavItem ["nav-item"; nm])));
    [|reflexivity].
  cbn [itemClasses]. unfold addClass.
  destruct (hasClass "active" ["nav-item"; nm]); reflexivity.
Qed.

Lemma activeSiblingName_without (l : list string) (acc : string) :
  (forall nm, In nm l -> In nm names) ->
  ~ In from l ->
  fold_left
    (fun currSection it =>
       (currSection ++
        (if hasClass "active" (itemClasses it)
         then toStr (secondClass (itemClasses it)) else ""))%string)
    (map (fun nm => markActive from (newItem nm)) l) acc
  = acc.
Proof.
  revert acc. induction l as [|nm l IH]; intros acc Hsub Hnot; simpl;
    [reflexivity|].
  rewrite item_active by (apply Hsub; now left).
  assert (E : (from =? nm) = false).
  { apply String.eqb_neq. intros ->. apply Hnot. now left. }
  rewrite E, append_empty_r. apply IH.
  - intros x Hx. apply Hsub. now right.
  - intros Hx. apply Hnot. now right.
Qed.

Lemma activeSiblingName_with (l : list string) (acc : string) :
  (forall nm, In nm l -> In nm names) ->
  NoDup l ->
  In from l ->
  fold_left
    (fun currSection it =>
       (currSection ++
        (if hasClass "active" (itemClasses it)
         then toStr (secondClass (itemClasses it)) else ""))%string)
    (map (fun nm => markActive from (newItem nm)) l) acc
  = (acc ++ from)%string.
Proof.
  revert acc. induction l as [|nm l IH]; intros acc Hsub Hnd Hin;
    [contradiction|].
  inversion Hnd as [|x l' Hnotin Hnd']; subst. simpl.
  rewrite item_active by (apply Hsub; now left).
  destruct (from =? nm) eqn:E.
  - apply String.eqb_eq in E. subst nm.
    rewrite item_secondClass.
    apply activeSiblingName_without; [|assumption].
    intros x Hx. apply Hsub. now right.
  - rewrite append_empty_r. apply IH; [|assumption|].
    + intros x Hx. apply Hsub. now right.
    + destruct Hin as [Heq|Hin]; [|assumption].
      apply String.eqb_neq in E. congruence.
Qed.

(** Clicking item [k] in the nav of column [from], on any page whose navs
    are those [addNavs] made: the item of the column itself does nothing,
    any other asks for its section, in the direction the comparison of the
    two [indexOf] results gives. *)
Lemma navItemClick_spec (st : Page) (owner : list string) (n j k : nat)
  (to : string) :
  nth_error (navs st) n
  = Some (mkNav owner (map (fun nm => markActive from (newItem nm)) names)) ->
  nth_error names j = Some from ->
  nth_error names k = Some to ->
  navItemClick n k st
  = if (j =? k)%nat then st
    else showSection to (navDirection (sections st) from (Str to)) st.
Proof.
  intros Hnav Hj Hk. unfold navItemClick. rewrite Hnav. simpl.
  rewrite nth_error_map, Hk. simpl.
  assert (Hto : In to names) by (eapply nth_error_In; eassumption).
  rewrite (item_active to Hto), item_secondClass.
  destruct (Nat.eqb_spec j k) as [->|Hjk].
  - assert (from = to) by congruence. subst to.
    now rewrite String.eqb_refl.
  - assert (Hne : from <> to).
    { intros ->. apply Hjk.
      apply (proj1 (NoDup_nth_error names) names_nodup);
        [apply nth_error_Some; congruence | congruence]. }
    apply String.eqb_neq in Hne. rewrite Hne.
    unfold siblings. rewrite firstn_map, skipn_map, <- map_app.
    pose proof (firstn_skipn_middle k names Hk) as Hmid.
    assert (Hnd : NoDup (firstn k names ++ to :: skipn (S k) names))
      by now rewrite Hmid.
    apply NoDup_remove in Hnd. destruct Hnd as [Hnd Hnotin].
    assert (Hsub : forall nm, In nm (firstn k names ++ skipn (S k) names)
                              -> In nm names).
    { intros nm Hnm. rewrite <- Hmid. apply in_app_iff in Hnm.
      apply in_app_iff. destruct Hnm; [now left | right; now right]. }
    assert (Hfrom : In from (firstn k names ++ skipn (S k) names)).
    { pose proof from_in as Hin. rewrite <- Hmid in Hin.
      apply in_app_iff in Hin. apply in_app_iff.
      destruct Hin as [H|[H|H]]; [now left | | now right].
      apply String.eqb_neq in Hne. congruence. }
    unfold activeSiblingName.
    rewrite (activeSiblingName_with _ "" Hsub Hnd Hfrom). reflexivity.
Qed.

End NavItems.

(** The navs and the remembered second classes of every page reached from
    the ready handler are those [addNavs] made. *)
Lemma reached_navs_sections (panels : list Panel) (navEls : list Nav)
  (docHeight : Q) (w : Z) (events : list Event) (n : nat) (nav : Nav) :
  let st := run events (ready panels navEls docHeight w) in
  nth_error navEls n = Some nav ->
  sections st = map (fun p => secondClass (classes p)) panels
  /\ nth_error (navs st) n
     = Some (mkNav (navOwner nav)
                   (map (fun nm => markActive
                                     (toStr (secondClass (navOwner nav)))
                                     (newItem nm))
                        (map (fun p => toStr (secondClass (classes p)))
                             panels))).
Proof.
  intros st Hnav.
  destruct (run_navs_sections events (ready panels navEls docHeight w))
    as [Hnavs Hsecs].
  destruct (handle_navs_sections
              (Resize w) (addNavs (mkPage [] false panels navEls docHeight [])))
    as [Hnavs0 Hsecs0].
  simpl handle in Hnavs0, Hsecs0.
  fold (ready panels navEls docHeight w) in Hnavs0, Hsecs0.
  unfold st. rewrite Hnavs, Hsecs, Hnavs0, Hsecs0. simpl.
  split; [reflexivity|].
  rewrite nth_error_map, Hnav. simpl. now rewrite !map_map.
Qed.



End Transitions.

(** ** Navigation while the info view is open *)

Section Overlay.

Import Legacy.

Lemma hasClass_toggleClass (c : string) (cl : list string) :
  hasClass c (toggleClass c cl) = negb (hasClass c cl).
Proof.
  unfold toggleClass. destruct (hasClass c cl) eqn:E; simpl.
  - apply hasClass_removeClass_same.
  - apply hasClass_addClass_same.
Qed.

(** C9, as the code has it: a click on a nav item that has the handlers
    starts the transition at once, on the page as the click found it; when
    both scripts have their handler on the item the same click then starts
    closing the info view (it gets the [hidden] class and its collapse is
    queued behind whatever is in its effects queue), and when only the main
    script has, the info view is left open, as it is by a click on the
    intro heading.  Nothing waits for the collapse to finish. *)
Theorem C9_navigation_is_not_deferred :
  forall (s : Site.State) (n k : nat) (nav : Nav) (it : NavItem)
         (projects : list Projects.Project) (card : Projects.Card),
    hasClass "hidden" (Projects.infoClasses (Site.proj s)) = false ->
    Projects.projData (Site.proj s) = Some projects ->
    Projects.findCard (Projects.infoTitle (Site.proj s))
                      (Projects.cards (Site.proj s)) = Some card ->
    nth_error (navs (Site.page s)) n = Some nav ->
    nth_error (navItems nav) k = Some it ->
    hasClass "active" (itemClasses it) = false ->
    let both := Site.navItemClick Site.mainFirst n k s in
    let mainOnly := Site.navItemClick Site.projectsFirst n k s in
    Site.page both = navItemClick n k (Site.page s)
    /\ hasClass "hidden" (Projects.infoClasses (Site.proj both)) = true
    /\ Projects.infoFx (Site.proj both)
       = Projects.infoFx (Site.proj s)
         ++ [Projects.mkInfoAnim
               (Projects.cardTop card + Projects.cardHeight card / 2)
               (Projects.cardLeft card + Projects.cardWidth card / 2)]
    /\ Site.closeCompleted both = false
    /\ Site.page mainOnly = navItemClick n k (Site.page s)
    /\ Site.proj mainOnly = Site.proj s
    /\ Site.page (Site.introClick s) = introClick (Site.page s)
    /\ Site.proj (Site.introClick s) = Site.proj s.
Proof.
  intros s n k nav it projects card Hopen Hdata Hcard Hnav Hit Hact
         both mainOnly.
  assert (Hboth : both
                  = Site.mkState
                      (navItemClick n k (Site.page s))
                      (Projects.mkProjPage
                         (Projects.projData (Site.proj s))
                         (Projects.cards (Site.proj s))
                         (toggleClass "hidden"
                            (Projects.infoClasses (Site.proj s)))
                         (Projects.infoTitle (Site.proj s))
                         (Projects.infoTop (Site.proj s))
                         (Projects.infoLeft (Site.proj s))
                         (Projects.infoFx (Site.proj s)
                          ++ [Projects.mkInfoAnim
                                (Projects.cardTop card
                                 + Projects.cardHeight card / 2)
                                (Projects.cardLeft card
                                 + Projects.cardWidth card / 2)])
                         (Projects.contentFx (Site.proj s) ++ [0])
                         (Projects.overlayFx (Site.proj s) ++ [0]))).
  { unfold both, Site.navItemClick. rewrite Hnav, Hit, Hact. simpl.
    unfold Projects.navItemClick. rewrite Hopen. simpl.
    unfold Projects.toggleInfo. rewrite Hdata, Hcard. reflexivity. }
  rewrite Hboth. unfold Site.closeCompleted. simpl.
  rewrite hasClass_toggleClass, Hopen. simpl.
  repeat split.
  destruct (Projects.infoFx (Site.proj s)); reflexivity.
Qed.

(** C9 at the sample page with the info view of a project open. *)
Lemma C9_witness :
  Site.page (Site.navItemClick Site.mainFirst 0 1 Samples.site)
  = navItemClick 0 1 Samples.paneled
  /\ Site.closeCompleted (Site.navItemClick Site.mainFirst 0 1 Samples.site)
     = false.
Proof.
  destruct (C9_navigation_is_not_deferred
              Samples.site 0 1
              (mkNav ["inner-col"; "home"]
                     [mkNavItem ["nav-item"; "home"; "active"];
                      mkNavItem ["nav-item"; "about"];
                      mkNavItem ["nav-item"; "work"]])
              (mkNavItem ["nav-item"; "about"])
              [Projects.mkProject "Alpha" "https://example.org/alpha"
                         (Some "2016 - 2017") (Some "An app.")]
              (Projects.mkCard "Alpha" 100 40 80 120)
              eq_refl eq_refl eq_refl eq_refl eq_refl eq_refl)
    as [Hpage [_ [_ [Hclose _]]]].
  split; [exact Hpage | exact Hclose].
Defined.

(** C9 as the claim words it fails: with the info view open, one click on
    the item "about" in the nav of the home column leaves the columns
    animating while the close of the info view has not completed, whichever
    script was ready first; and the intro heading, another trigger of a
    transition, leaves the info view open altogether. *)
Lemma C9_counterexample :
  Site.closeCompleted Samples.site = false
  /\ Site.baseAnimating Samples.site = false
  /\ Site.baseAnimating
       (Site.navItemClick Site.mainFirst 0 1 Samples.site) = true
  /\ Site.closeCompleted
       (Site.navItemClick Site.mainFirst 0 1 Samples.site) = false
  /\ Site.baseAnimating
       (Site.navItemClick Site.projectsFirst 0 1 Samples.site) = true
  /\ Site.closeCompleted
       (Site.navItemClick Site.projectsFirst 0 1 Samples.site) = false
  /\ Site.baseAnimating (Site.introClick Samples.site) = true
  /\ hasClass "hidden"
       (Projects.infoClasses (Site.proj (Site.introClick Samples.site)))
     = false.
Proof.
  repeat split.
Qed.

End Overlay.

(** ** The resolver *)

Section ResolverProps.

Import Resolver.

Lemma greatestIndex_none (secs : list Section) (offset : Z) (i best : nat) :
  (forall s, In s secs -> (offset < startOffset s)%Z) ->
  greatestIndex secs offset i best = best.
Proof.
  revert i best. induction secs as [|s rest IH]; intros i best Hall; simpl;
    [reflexivity|].
  assert (Hs : (startOffset s <=? offset)%Z = false).
  { apply Z.leb_gt. apply Hall. now left. }
  rewrite Hs. apply IH. intros s' Hin. apply Hall. now right.
Qed.

Lemma greatestIndex_some (secs : list Section) (offset : Z) (i best k : nat)
  (s : Section) :
  nth_error secs k = Some s ->
  (startOffset s <= offset)%Z ->
  (forall j s', nth_error secs j = Some s' ->
                (startOffset s' <= offset)%Z -> (j <= k)%nat) ->
  greatestIndex secs offset i best = (i + k)%nat.
Proof.
  revert i best k. induction secs as [|x rest IH]; intros i best k Hk Hle Hmax.
  - destruct k; discriminate.
  - destruct k as [|k]; simpl in *.
    + injection Hk as ->.
      assert (Hs : (startOffset s <=? offset)%Z = true) by now apply Z.leb_le.
      rewrite Hs, Nat.add_0_r. apply greatestIndex_none.
      intros s' Hin. apply In_nth_error in Hin. destruct Hin as [j Hj].
      destruct (Z.lt_ge_cases offset (startOffset s')) as [Hlt|Hge];
        [exact Hlt|].
      specialize (Hmax (S j) s' Hj Hge). lia.
    + rewrite (IH (S i) _ k Hk Hle); [lia|].
      intros j s' Hj Hs'. specialize (Hmax (S j) s' Hj Hs'). lia.
Qed.

Lemma greatestIndex_bound (secs : list Section) (offset : Z)
  (i best bound : nat) :
  (best < bound)%nat ->
  (i + List.length secs <= bound)%nat ->
  (greatestIndex secs offset i best < bound)%nat.
Proof.
  revert i best. induction secs as [|x rest IH]; intros i best Hb Hlen;
    simpl in *; [exact Hb|].
  apply IH; [|lia].
  destruct (startOffset x <=? offset)%Z; lia.
Qed.


Lemma ascending_head_least (s : Section) (rest : list Section) :
  ascending (s :: rest) ->
  forall s', In s' rest -> (startOffset s <= startOffset s')%Z.
Proof.
  revert s. induction rest as [|x rest IH]; intros s Hasc s' Hin;
    [contradiction|].
  destruct Hasc as [Hsx Hrest]. destruct Hin as [->|Hin]; [exact Hsx|].
  specialize (IH x Hrest s' Hin). lia.
Qed.


(** C1: on a well-formed section list and for a non-negative offset,
    [resolve] gives the greatest index whose start offset is not beyond the
    offset; it gives 0 when the offset is before the start of the first
    section; it gives some index in range whenever there is a section; and
    with starts 0, 800, 1600 the offsets 750, 800 and 2000 resolve to 0, 1
    and 2. *)
Theorem C1_resolve_greatest_index :
  forall (secs : list Section) (offset : Z),
    well_formed secs ->
    (0 <= offset)%Z ->
    (forall i s,
        nth_error secs i = Some s ->
        (startOffset s <= offset)%Z ->
        (forall j s', nth_error secs j = Some s' ->
                      (startOffset s' <= offset)%Z -> (j <= i)%nat) ->
        resolve secs offset = Some i)
    /\ (forall s,
          hd_error secs = Some s ->
          (offset < startOffset s)%Z ->
          resolve secs offset = Some 0%nat)
    /\ (forall s,
          hd_error secs = Some s ->
          exists i, resolve secs offset = Some i
                    /\ (i < List.length secs)%nat)
    /\ resolve Samples.sectionList 750 = Some 0%nat
    /\ resolve Samples.sectionList 800 = Some 1%nat
    /\ resolve Samples.sectionList 2000 = Some 2%nat.
Proof.
  intros secs offset [Hord Hasc] Hoff.
  split; [|split; [|split; [|repeat split]]].
  - intros i s Hi Hle Hmax. destruct secs as [|x rest];
      [destruct i; discriminate|].
    unfold resolve. f_equal.
    apply (greatestIndex_some (x :: rest) offset 0 0 i s Hi Hle Hmax).
  - intros s Hhd Hlt. destruct secs as [|x rest]; [discriminate|].
    injection Hhd as ->. unfold resolve. f_equal.
    apply greatestIndex_none. intros s' [<-|Hin]; [exact Hlt|].
    pose proof (ascending_head_least s rest Hasc s' Hin). lia.
  - intros s Hhd. destruct secs as [|x rest]; [discriminate|].
    eexists. split; [reflexivity|].
    apply greatestIndex_bound; simpl; lia.
Qed.

Lemma sample_well_formed : well_formed Samples.sectionList.
Proof.
  split.
  - intros i s Hi.
    destruct i as [|[|[|i]]]; simpl in Hi;
      try (injection Hi as <-; reflexivity).
    destruct i; discriminate.
  - simpl. lia.
Qed.

(** C1 at the scenario list: offset 800 resolves to the second section, an
    offset before a later first start would resolve to 0. *)
Lemma C1_witness :
  resolve Samples.sectionList 800 = Some 1%nat
  /\ resolve [mkSection "late" 0 100] 40 = Some 0%nat.
Proof.
  split.
  - refine (proj1 (C1_resolve_greatest_index Samples.sectionList 800
                     sample_well_formed _)
                  1%nat (mkSection "about" 1 800) eq_refl _ _).
    + lia.
    + simpl. lia.
    + intros j s' Hj Hle.
      destruct j as [|[|[|j]]]; simpl in Hj; try lia.
      * injection Hj as <-. simpl in Hle. lia.
      * destruct j; discriminate.
  - refine (proj1 (proj2 (C1_resolve_greatest_index
                            [mkSection "late" 0 100] 40 _ _))
                  (mkSection "late" 0 100) eq_refl _).
    + split; [|simpl; auto].
      intros i s Hi. destruct i as [|i]; simpl in Hi;
        [injection Hi as <-; reflexivity | destruct i; discriminate].
    + lia.
    + simpl. lia.
Defined.

End ResolverProps.

(** ** The router listeners of the container *)

Section Listeners.

Import Resolver App.

Lemma registration_eqb_spec (e ev : RouterEvent) (g h : Handler) :
  (event_eqb e ev && handler_eqb g h)%bool = true <-> (e, g) = (ev, h).
Proof.
  destruct e, ev, g, h; simpl; split; intros H;
    try reflexivity; try discriminate.
Qed.

(** [off] takes out one registration if there is one. *)
Lemma off_registered (ev : RouterEvent) (h : Handler) (ls : Listeners) :
  In (ev, h) ls -> Permutation ls ((ev, h) :: off ev h ls).
Proof.
  induction ls as [|[e g] ls IH]; intros Hin; [contradiction|].
  simpl. destruct (event_eqb e ev && handler_eqb g h)%bool eqn:E.
  - apply registration_eqb_spec in E. rewrite E. apply Permutation_refl.
  - destruct Hin as [Heq|Hin].
    + apply registration_eqb_spec in Heq. congruence.
    + eapply perm_trans; [apply perm_skip, IH, Hin | apply perm_swap].
Qed.

Lemma cleanup_removes (fns : list (RouterEvent * Handler))
  (ls rest : Listeners) :
  Permutation ls (fns ++ rest) ->
  Permutation (cleanup fns ls) rest.
Proof.
  unfold cleanup. revert ls. induction fns as [|[ev h] fns IH];
    intros ls Hp; simpl in *; [exact Hp|].
  apply IH.
  assert (Hin : In (ev, h) ls).
  { apply (Permutation_in _ (Permutation_sym Hp)). now left. }
  apply Permutation_cons_inv with (a := (ev, h)).
  eapply perm_trans; [apply Permutation_sym, off_registered, Hin | exact Hp].
Qed.








End Listeners.

(** ** Pages without sections *)

Section NoSections.

Import Resolver App.

(** C7: for an empty section list the resolver gives no index at all, not
    0; a page without content sections hands [Screen] no [contentSections],
    and [Screen] then mounts no side nav menu whatever the display size,
    while a page with sections whose current index is 0 does get them and,
    at a display size that shows the side nav, the menu with index 0. *)
Theorem C7_no_sections_is_not_section_zero :
  forall (ContentSection Percent DisplaySize : Type)
         (shouldShowMainNavMenu shouldShowSideNavMenu : DisplaySize -> bool)
         (route pathname : string)
         (getSectionsForPage : string -> list ContentSection)
         (index : nat) (isRendering : bool) (percent : option Percent)
         (displaySize : DisplaySize) (offset : Z),
    let view := Screen ContentSection Percent DisplaySize
                       shouldShowMainNavMenu shouldShowSideNavMenu
                       displaySize in
    resolve [] offset = None
    /\ resolve [] offset <> Some 0%nat
    /\ resolve (sectionHeights None (slugOf pathname)) offset = None
    /\ (getSectionsForPage (slugOf pathname) = [] ->
        match InContext ContentSection Percent route pathname
                        getSectionsForPage index isRendering percent with
        | Children _ _ => True
        | ScreenEl _ _ props =>
            contentSections _ _ props = None
            /\ sideNavMenu _ _ (view props) = None
        end)
    /\ (forall c cs,
          getSectionsForPage (slugOf pathname) = c :: cs ->
          (route =? "/") = false ->
          shouldShowSideNavMenu displaySize = true ->
          match InContext ContentSection Percent route pathname
                          getSectionsForPage 0%nat isRendering percent
          with
          | Children _ _ => False
          | ScreenEl _ _ props =>
              sideNavMenu _ _ (view props) = Some (0%nat, c :: cs)
          end).
Proof.
  intros. repeat split.
  - discriminate.
  - intros Hempty. unfold InContext. rewrite Hempty.
    destruct (route =? "/"); [exact I|]. simpl. split; reflexivity.
  - intros c cs Hsecs Hroute Hside. unfold InContext.
    rewrite Hsecs, Hroute. unfold view, Screen. simpl. now rewrite Hside.
Qed.

(** C7 at a content page without sections and at one with two. *)
Lemma C7_witness :
  sideNavMenu string Z
    (Screen string Z bool (fun _ => true) (fun b => b) true
            (mkScreenProps string Z "about" None false None))
  = None
  /\ sideNavMenu string Z
       (Screen string Z bool (fun _ => true) (fun b => b) true
               (mkScreenProps string Z "work"
                  (Some (mkContentSections string 0%nat
                                           ["one"; "two"]))
                  false None))
     = Some (0%nat, ["one"; "two"]).
Proof.
  split.
  - exact (proj2
             (proj1 (proj2 (proj2 (proj2
                (C7_no_sections_is_not_section_zero
                   string Z bool (fun _ => true) (fun b => b)
                   "/about" "/about" (fun _ => []) 0%nat false None
                   true 0%Z))))
                eq_refl)).
  - exact (proj2 (proj2 (proj2 (proj2
             (C7_no_sections_is_not_section_zero
                string Z bool (fun _ => true) (fun b => b)
                "/work" "/work" (fun _ => ["one"; "two"]) 0%nat false None
                true 0%Z))))
             "one" ["two"] eq_refl eq_refl eq_refl).
Defined.

End NoSections.

(** * Further properties of the legacy single-page script *)

Section MoreBreakpoints.

Import Legacy Shapes.

(** X1: while the window is dragged through widths of one tier only the
    first [checkWidths] can do anything: a run of resize events whose
    widths lie on the same side of the threshold as the first leaves the
    page exactly as the first call left it. *)
Theorem X1_resizes_within_a_tier_collapse :
  forall (w : Z) (ws : list Z) (st : Page),
    Forall (fun w' => (w' <=? MOBILE_SIZE)%Z = (w <=? MOBILE_SIZE)%Z) ws ->
    resizes (w :: ws) st = checkWidths w st.
Proof.
  intros w ws st Hall. simpl.
  assert (Hm : mobile (checkWidths w st) = (w <=? MOBILE_SIZE)%Z)
    by apply checkWidths_mobile.
  generalize dependent (checkWidths w st). clear st.
  induction Hall as [|w' ws Hw' Hall IH]; intros s Hm; simpl;
    [reflexivity|].
  rewrite (checkWidths_same_tier w' s) by congruence.
  apply IH. exact Hm.
Qed.

(** X1 on the sample page: 750, then 700 and 800. *)
Lemma X1_witness :
  resizes [750; 700; 800]%Z Samples.paneled
  = checkWidths 750 Samples.paneled.
Proof.
  apply (X1_resizes_within_a_tier_collapse 750 [700; 800]%Z Samples.paneled).
  repeat constructor.
Defined.

Lemma showSection_stacked (st : Page) (sectionName dir : string) :
  mobile st = true -> showSection sectionName dir st = st.
Proof. intros Hm. unfold showSection. now rewrite Hm. Qed.

Lemma navItemClick_cases (n k : nat) (st : Page) :
  navItemClick n k st = st
  \/ exists sectionName dir, navItemClick n k st = showSection sectionName dir st.
Proof.
  unfold navItemClick.
  destruct (nth_error (navs st) n) as [nav|]; [|now left].
  destruct (nth_error (navItems nav) k) as [it|]; [|now left].
  destruct (hasClass "active" (itemClasses it)); [now left|].
  right. eexists. eexists. reflexivity.
Qed.

Lemma fireTimer_cases (k : nat) (st : Page) :
  fireTimer k st = st
  \/ exists ts, fireTimer k st
                = each (is_ "hidden") (cssDisplay DisplayNone) (setTimers ts st).
Proof.
  unfold fireTimer. destruct (nth_error (timers st) k) as [t|]; [|now left].
  right. destruct t as [[] d]. eexists. reflexivity.
Qed.

Lemma stackCol_stacked (p : Panel) : stackedCol (stackCol p).
Proof.
  unfold stackedCol, stackCol, is_. simpl. repeat split.
  - rewrite hasClass_addClass_other by discriminate.
    apply hasClass_removeClass_same.
  - apply hasClass_addClass_same.
Qed.

Lemma checkWidths_keeps_stacked (w : Z) (st : Page) :
  (mobile st = true -> Forall stackedCol (cols st)) ->
  mobile (checkWidths w st) = true ->
  Forall stackedCol (cols (checkWidths w st)).
Proof.
  intros Hinv Hm'. rewrite checkWidths_mobile in Hm'.
  destruct (mobile st) eqn:Hm.
  - rewrite checkWidths_same_tier by congruence. now apply Hinv.
  - unfold checkWidths. rewrite Hm' , Hm. simpl.
    apply Forall_forall. intros p Hin. apply in_map_iff in Hin.
    destruct Hin as [q [<- _]]. apply stackCol_stacked.
Qed.

Lemma handle_keeps_stacked (e : Event) (st : Page) :
  (mobile st = true -> Forall stackedCol (cols st)) ->
  mobile (handle e st) = true ->
  Forall stackedCol (cols (handle e st)).
Proof.
  intros Hinv Hm'. destruct e as [w| |n k|k]; simpl in *.
  - now apply checkWidths_keeps_stacked.
  - unfold introClick in *. rewrite showSection_mobile in Hm'.
    rewrite showSection_stacked by assumption. now apply Hinv.
  - destruct (navItemClick_cases n k st) as [H|[s [d H]]]; rewrite H in *.
    + now apply Hinv.
    + rewrite showSection_mobile in Hm'.
      rewrite showSection_stacked by assumption. now apply Hinv.
  - destruct (fireTimer_cases k st) as [H|[ts H]]; rewrite H in *.
    + now apply Hinv.
    + simpl in Hm'. specialize (Hinv Hm'). simpl.
      apply Forall_forall. intros p Hin. apply in_map_iff in Hin.
      destruct Hin as [q [<- Hq]].
      pose proof (proj1 (Forall_forall _ _) Hinv q Hq) as Hs.
      destruct Hs as [Hh Hrest]. rewrite Hh. split; assumption.
Qed.

(** X2: on every page reached from the ready handler by resize events,
    clicks and timers in any order, a stacked layout has every column
    shown: no column carries [hidden], each has [display: block] and the
    [mobile] class.  In particular a timer left over from a transition
    hides nothing once the page is stacked. *)
Theorem X2_stacked_pages_show_every_column :
  forall (panels : list Panel) (navEls : list Nav) (docHeight : Q) (w : Z)
         (events : list Event) (p : Panel),
    let st := run events (ready panels navEls docHeight w) in
    mobile st = true ->
    In p (cols st) ->
    is_ "hidden" p = false /\ display p = DisplayBlock /\ is_ "mobile" p = true.
Proof.
  intros panels navEls docHeight w events p st Hm Hin.
  assert (Hinv : forall es s,
             (mobile s = true -> Forall stackedCol (cols s)) ->
             mobile (run es s) = true -> Forall stackedCol (cols (run es s))).
  { unfold run. induction es as [|e es IH]; intros s Hs Hm'; simpl in *.
    - now apply Hs.
    - apply IH; [|exact Hm']. intros He. now apply handle_keeps_stacked. }
  assert (Hall : Forall stackedCol (cols st)).
  { apply Hinv; [|exact Hm]. intros Hr. unfold ready in *.
    apply checkWidths_keeps_stacked; [discriminate | exact Hr]. }
  exact (proj1 (Forall_forall _ _) Hall p Hin).
Qed.

(** X2 on the sample page: a transition is started, the window is then
    narrowed and the timer of the transition fires afterwards. *)
Lemma X2_witness :
  is_ "hidden" (mkPanel ["inner-col"; "home"; "mobile"] DisplayBlock TopUnset
                        300 [mkAnim (TopPx (- twoThirds 300)) "3s"]) = false.
Proof.
  refine (proj1 (X2_stacked_pages_show_every_column
                   Samples.panels Samples.navEls 1000 900
                   [NavItemClick 0 1; Resize 750; TimerFires 0]
                   _ eq_refl _)).
  left. reflexivity.
Defined.

End MoreBreakpoints.

Section RoundTrip.

Import Legacy Shapes.

Lemma is_home_resetHome (p : Panel) :
  is_ "home" (resetHome p) = is_ "home" p.
Proof.
  unfold is_, resetHome. simpl.
  apply hasClass_removeClass_other. discriminate.
Qed.

(** One column through stacking and unstacking. *)
Lemma narrow_then_wide_cols (w1 w2 : Z) (st : Page) :
  mobile st = false ->
  (w1 <= MOBILE_SIZE)%Z -> (MOBILE_SIZE < w2)%Z ->
  cols (checkWidths w2 (checkWidths w1 st))
  = map (fun p => if is_ "home" p then resetHome (stackCol p)
                  else unstackCol (stackCol p))
        (cols st).
Proof.
  intros Hm H1 H2.
  assert (E1 : (w1 <=? MOBILE_SIZE)%Z = true) by lia.
  assert (E2 : (w2 <=? MOBILE_SIZE)%Z = false) by lia.
  assert (E3 : (w2 >? MOBILE_SIZE)%Z = true) by lia.
  unfold checkWidths at 2. rewrite E1, Hm. simpl.
  unfold checkWidths. simpl. rewrite E2, E3. simpl. rewrite !map_map.
  apply map_ext. intros p. unfold all, not_.
  rewrite is_home_stackCol.
  destruct (is_ "home" p) eqn:E; simpl.
  - now rewrite is_home_stackCol, E.
  - now rewrite is_home_unstackCol, is_home_stackCol, E.
Qed.

(** X3: a paneled page that is narrowed to the stacked layout and widened
    again comes back showing its home columns and nothing else, whichever
    section was showing before: every home column is shown at [top: 50%],
    every other column is hidden with [display: none], and none keeps the
    [mobile] class. *)
Theorem X3_stacked_round_trip_shows_home_only :
  forall (w1 w2 : Z) (st : Page) (i : nat) (p : Panel),
    mobile st = false ->
    (w1 <= MOBILE_SIZE)%Z ->
    (MOBILE_SIZE < w2)%Z ->
    nth_error (cols st) i = Some p ->
    exists p' : Panel,
      nth_error (cols (checkWidths w2 (checkWidths w1 st))) i = Some p'
      /\ is_ "home" p' = is_ "home" p
      /\ is_ "mobile" p' = false
      /\ (if is_ "home" p
          then shown p' /\ top p' = TopPercent 50
          else putAway p' /\ top p' = top p).
Proof.
  intros w1 w2 st i p Hm H1 H2 Hp.
  rewrite (narrow_then_wide_cols w1 w2 st Hm H1 H2).
  rewrite nth_error_map, Hp. simpl. eexists. split; [reflexivity|].
  destruct (is_ "home" p) eqn:E.
  - rewrite is_home_resetHome, is_home_stackCol. split; [exact E|].
    unfold shown, is_, resetHome, stackCol. simpl.
    split; [apply hasClass_removeClass_same|].
    split; [|reflexivity]. split; [|reflexivity].
    rewrite hasClass_removeClass_other by discriminate.
    rewrite hasClass_addClass_other by discriminate.
    apply hasClass_removeClass_same.
  - rewrite is_home_unstackCol, is_home_stackCol. split; [exact E|].
    unfold putAway, is_, unstackCol, stackCol. simpl.
    split.
    + rewrite hasClass_addClass_other by discriminate.
      apply hasClass_removeClass_same.
    + split; [|reflexivity]. split; [|reflexivity].
      apply hasClass_addClass_same.
Qed.

(** X3 on the sample page after the about section was brought up: the
    about column, showing before, is put away after the round trip. *)
Lemma X3_witness :
  exists p' : Panel,
    nth_error (cols (checkWidths 1024 (checkWidths 640
                       (settle (navItemClick 0 1 Samples.paneled))))) 1
    = Some p'
    /\ is_ "hidden" p' = true /\ display p' = DisplayNone.
Proof.
  destruct (X3_stacked_round_trip_shows_home_only
              640 1024 (settle (navItemClick 0 1 Samples.paneled)) 1
              (mkPanel ["inner-col"; "about"] DisplayBlock
                       (TopPx (1000 + twoThirds 600)) 600
                       [mkAnim (TopPercent 50) "3s"]))
    as [p' [Hnth [_ [_ Hshape]]]];
    [reflexivity | unfold MOBILE_SIZE; lia | unfold MOBILE_SIZE; lia
     | reflexivity |].
  exists p'. split; [exact Hnth|]. exact (proj1 Hshape).
Defined.

End RoundTrip.

Section Frames.

Import Legacy Shapes.

Lemma each_keeps_class (c : string) (sel : Panel -> bool)
  (f : Panel -> Panel) (st : Page) :
  (forall p, is_ c (f p) = is_ c p) ->
  map (is_ c) (cols (each sel f st)) = map (is_ c) (cols st).
Proof.
  intros Hf. unfold each. simpl. rewrite map_map. apply map_ext.
  intros p. destruct (sel p); [apply Hf | reflexivity].
Qed.

Section OneClass.

Variable c : string.
Hypothesis not_hidden : c <> "hidden".
Hypothesis not_mobile : c <> "mobile".

Lemma checkWidths_keeps_class (w : Z) (st : Page) :
  map (is_ c) (cols (checkWidths w st)) = map (is_ c) (cols st).
Proof.
  assert (Hstack : forall p, is_ c (stackCol p) = is_ c p).
  { intros p. unfold is_, stackCol. simpl.
    rewrite hasClass_addClass_other, hasClass_removeClass_other;
      [reflexivity | assumption | assumption]. }
  assert (Hunstack : forall p, is_ c (unstackCol p) = is_ c p).
  { intros p. unfold is_, unstackCol. simpl.
    rewrite hasClass_addClass_other, hasClass_removeClass_other;
      [reflexivity | assumption | assumption]. }
  assert (Hreset : forall p, is_ c (resetHome p) = is_ c p).
  { intros p. unfold is_, resetHome. simpl.
    now apply hasClass_removeClass_other. }
  unfold checkWidths.
  destruct ((w <=? MOBILE_SIZE)%Z && negb (mobile st))%bool.
  - now rewrite each_keeps_class.
  - destruct ((w >? MOBILE_SIZE)%Z && mobile st)%bool; [|reflexivity].
    rewrite each_keeps_class by assumption.
    now rewrite each_keeps_class.
Qed.

Lemma showSection_keeps_class (sectionName dir : string) (st : Page) :
  map (is_ c) (cols (showSection sectionName dir st)) = map (is_ c) (cols st).
Proof.
  unfold showSection. destruct (negb (mobile st)); [|reflexivity].
  rewrite each_keeps_class by (intros p; reflexivity).
  unfold setTimeout.
  change (cols (setTimers ?t ?s)) with (cols s).
  rewrite each_keeps_class
    by (intros p; unfold is_; simpl; now apply hasClass_removeClass_other).
  apply each_keeps_class. intros p. now apply is_slideOut.
Qed.

Lemma handle_keeps_class (e : Event) (st : Page) :
  map (is_ c) (cols (handle e st)) = map (is_ c) (cols st).
Proof.
  destruct e as [w| |n k|k]; simpl.
  - apply checkWidths_keeps_class.
  - apply showSection_keeps_class.
  - destruct (navItemClick_cases n k st) as [H|[s [d H]]]; rewrite H;
      [reflexivity | apply showSection_keeps_class].
  - destruct (fireTimer_cases k st) as [H|[ts H]]; rewrite H;
      [reflexivity|].
    rewrite each_keeps_class by (intros p; reflexivity). reflexivity.
Qed.

Lemma run_keeps_class (es : list Event) (st : Page) :
  map (is_ c) (cols (run es st)) = map (is_ c) (cols st).
Proof.
  unfold run. revert st. induction es as [|e es IH]; intros st; simpl;
    [reflexivity|].
  rewrite IH. apply handle_keeps_class.
Qed.

End OneClass.

(** X4: the script only ever adds and removes the classes [hidden] and
    [mobile]: whatever sequence of resize events, clicks and timers a page
    goes through, it keeps its columns in number and order, and every
    column carries any other class (the name of its section, [home])
    exactly if it did before. *)
Theorem X4_only_hidden_and_mobile_change :
  forall (c : string) (events : list Event) (st : Page),
    c <> "hidden" ->
    c <> "mobile" ->
    List.length (cols (run events st)) = List.length (cols st)
    /\ forall i p,
         nth_error (cols st) i = Some p ->
         exists p' : Panel,
           nth_error (cols (run events st)) i = Some p'
           /\ is_ c p' = is_ c p.
Proof.
  intros c events st Hh Hm.
  pose proof (run_keeps_class c Hh Hm events st) as Hmap.
  split.
  - apply (f_equal (@List.length bool)) in Hmap.
    now rewrite !length_map in Hmap.
  - intros i p Hp.
    apply (f_equal (fun l => nth_error l i)) in Hmap.
    rewrite !nth_error_map, Hp in Hmap. simpl in Hmap.
    destruct (nth_error (cols (run events st)) i) as [p'|]; [|discriminate].
    exists p'. split; [reflexivity|]. simpl in Hmap. congruence.
Qed.

(** X4 on the sample page: after a transition, a narrowing and a timer the
    second column is still the about column. *)
Lemma X4_witness :
  exists p' : Panel,
    nth_error (cols (run [NavItemClick 0 1; Resize 750; TimerFires 0]
                         Samples.paneled)) 1 = Some p'
    /\ is_ "about" p' = true.
Proof.
  destruct (X4_only_hidden_and_mobile_change
              "about" [NavItemClick 0 1; Resize 750; TimerFires 0]
              Samples.paneled) as [_ H]; [discriminate | discriminate |].
  destruct (H 1%nat (mkPanel ["inner-col"; "about"; "hidden"] DisplayUnset
                             TopUnset 600 []) eq_refl) as [p' [Hnth Hc]].
  exists p'. split; [exact Hnth | exact Hc].
Defined.

(** The timer callback on one column, applied twice. *)
Lemma hide_twice (p : Panel) :
  (fun q => if is_ "hidden" q then cssDisplay DisplayNone q else q)
    (if is_ "hidden" p then cssDisplay DisplayNone p else p)
  = if is_ "hidden" p then cssDisplay DisplayNone p else p.
Proof.
  destruct (is_ "hidden" p) eqn:E; simpl; [|now rewrite E].
  unfold is_ in *. simpl. now rewrite E.
Qed.

(** X5: a timer that fires leaves the pending list one shorter and, of the
    columns, changes nothing but the [display] of those that carry
    [hidden], which becomes [none]; any timer that fires after it finds
    nothing left to do, so redundant timers are harmless. *)
Theorem X5_timer_only_hides_hidden_columns :
  forall (st : Page) (k : nat) (t : Timer),
    nth_error (timers st) k = Some t ->
    S (List.length (timers (fireTimer k st))) = List.length (timers st)
    /\ (forall j, cols (fireTimer j (fireTimer k st)) = cols (fireTimer k st))
    /\ (forall i p,
          nth_error (cols st) i = Some p ->
          exists p' : Panel,
            nth_error (cols (fireTimer k st)) i = Some p'
            /\ classes p' = classes p
            /\ top p' = top p
            /\ fx p' = fx p
            /\ display p' = if is_ "hidden" p then DisplayNone else display p).
Proof.
  intros st k t Hk.
  assert (Hfire : fireTimer k st
                  = each (is_ "hidden") (cssDisplay DisplayNone)
                         (setTimers (firstn k (timers st)
                                     ++ skipn (S k) (timers st)) st)).
  { unfold fireTimer. rewrite Hk. destruct t as [[] d]. reflexivity. }
  split; [|split].
  - rewrite Hfire. simpl.
    rewrite <- (firstn_skipn_middle k (timers st) Hk) at 3.
    rewrite !length_app. simpl. lia.
  - intros j.
    destruct (fireTimer_cases j (fireTimer k st)) as [H|[ts H]]; rewrite H;
      [reflexivity|].
    rewrite Hfire. simpl. rewrite map_map. apply map_ext.
    intros p. apply hide_twice.
  - intros i p Hp. rewrite Hfire. simpl. rewrite nth_error_map, Hp. simpl.
    eexists. split; [reflexivity|].
    destruct (is_ "hidden" p); repeat split.
Qed.

(** X5 on the sample page with the timers of two transitions pending. *)
Lemma X5_witness :
  S (List.length
       (timers (fireTimer 1 (navItemClick 0 1
                               (navItemClick 0 2 Samples.paneled)))))
  = 2%nat.
Proof.
  exact (proj1 (X5_timer_only_hides_hidden_columns
                  (navItemClick 0 1 (navItemClick 0 2 Samples.paneled)) 1
                  (mkTimer hideHiddenCols 500) eq_refl)).
Defined.

End Frames.

Section NavStructure.

Import Legacy Shapes.

Lemma filter_eqb_one (from : string) (names : list string) :
  NoDup names -> In from names ->
  List.length (filter (String.eqb from) names) = 1%nat.
Proof.
  induction names as [|nm names IH]; intros Hnd Hin; [contradiction|].
  inversion Hnd as [|x l Hnotin Hnd']; subst. simpl.
  destruct (String.eqb_spec from nm) as [->|Hne].
  - simpl. f_equal.
    assert (Hnone : forall l, ~ In nm l -> filter (String.eqb nm) l = []).
    { induction l as [|y l IHl]; intros Hy; simpl; [reflexivity|].
      destruct (String.eqb_spec nm y) as [->|_];
        [exfalso; apply Hy; now left|].
      apply IHl. intros H. apply Hy. now right. }
    now rewrite Hnone.
  - apply IH; [assumption|]. destruct Hin as [->|Hin]; [contradiction|assumption].
Qed.

(** X6: on every page reached from the ready handler, [sections] holds
    the second class of each column in the order of the columns,
    [undefined] for a column that has none; each nav holds one item per
    column, in that order, whose second class is that of the column
    spliced in as a string; and, these strings being distinct, exactly one
    item of a nav is marked active: the item of the column the nav sits
    in. *)
Theorem X6_each_nav_has_one_active_item :
  forall (panels : list Panel) (navEls : list Nav) (docHeight : Q) (w : Z)
         (events : list Event) (n : nat) (nav : Nav),
    let values := map (fun p => secondClass (classes p)) panels in
    let names := map toStr values in
    let st := run events (ready panels navEls docHeight w) in
    NoDup names ->
    ~ In "nav-item" names ->
    ~ In "active" names ->
    nth_error navEls n = Some nav ->
    In (toStr (secondClass (navOwner nav))) names ->
    sections st = values
    /\ exists nav' : Nav,
         nth_error (navs st) n = Some nav'
         /\ map (fun it => secondClass (itemClasses it)) (navItems nav')
            = map Str names
         /\ map (fun it => hasClass "active" (itemClasses it)) (navItems nav')
            = map (String.eqb (toStr (secondClass (navOwner nav)))) names
         /\ List.length
              (filter (fun it => hasClass "active" (itemClasses it))
                      (navItems nav'))
            = 1%nat.
Proof.
  intros panels navEls docHeight w events n nav values names st
         Hnd Hni Hna Hnav Hfrom.
  destruct (reached_navs_sections panels navEls docHeight w events n nav Hnav)
    as [Hsecs Hn]. fold st in Hsecs, Hn. fold values in Hsecs.
  rewrite <- (map_map (fun p => secondClass (classes p)) toStr) in Hn.
  fold values in Hn. fold names in Hn.
  split; [exact Hsecs|]. eexists. split; [exact Hn|]. simpl.
  assert (Hact : map (fun it => hasClass "active" (itemClasses it))
                     (map (fun nm => markActive
                                       (toStr (secondClass (navOwner nav)))
                                       (newItem nm)) names)
                 = map (String.eqb (toStr (secondClass (navOwner nav))))
                       names).
  { rewrite map_map. apply map_ext_in. intros nm Hnm.
    now apply (item_active names). }
  split; [|split; [exact Hact|]].
  - rewrite map_map. apply map_ext. intros nm. apply item_secondClass.
  - rewrite filter_map_swap, length_map.
    rewrite (filter_ext_in
               _ (String.eqb (toStr (secondClass (navOwner nav)))));
      [now apply filter_eqb_one|].
    intros nm Hnm. now apply (item_active names).
Qed.

(** X6 on a page whose second column has no second class: [sections]
    holds [undefined] for it, and its nav has its own item active. *)
Lemma X6_witness :
  sections MoreSamples.nameless = [Str "home"; undefined]
  /\ exists nav' : Nav,
       nth_error (navs MoreSamples.nameless) 1 = Some nav'
       /\ map (fun it => hasClass "active" (itemClasses it)) (navItems nav')
          = [false; true].
Proof.
  destruct (X6_each_nav_has_one_active_item
              MoreSamples.namelessPanels MoreSamples.namelessNavs 1000 900 [] 1
              (mkNav ["inner-col"] []))
    as [Hsecs [nav' [Hnth [_ [Hact _]]]]].
  - repeat constructor; simpl; intuition discriminate.
  - simpl. intuition discriminate.
  - simpl. intuition discriminate.
  - reflexivity.
  - simpl. auto.
  - split; [exact Hsecs|]. exists nav'. split; [exact Hnth | exact Hact].
Defined.

Lemma indexOf_absent (l : list Value) (x : Value) :
  ~ In x l -> indexOf l x = (-1)%Z.
Proof.
  induction l as [|y l IH]; intros Hnot; simpl; [reflexivity|].
  destruct (strictEq y x) eqn:E.
  - apply strictEq_spec in E. exfalso. apply Hnot. now left.
  - rewrite IH by (intros H; apply Hnot; now right). reflexivity.
Qed.

(** X20: a column without a second class is remembered as [undefined] and
    is never found by the look-up of the click handler, which searches for
    the string "undefined".  On a page reached from the ready handler,
    with distinct names, a click on the item of such a column asks for the
    section "undefined" in the direction "up" wherever the column stands,
    and a click in the nav of such a column asks for the "down" direction
    wherever the clicked section stands. *)
Theorem X20_nameless_column_is_never_found :
  forall (panels : list Panel) (navEls : list Nav) (docHeight : Q) (w : Z)
         (events : list Event) (n j k : nat) (nav : Nav) (from to : Value),
    let values := map (fun p => secondClass (classes p)) panels in
    let names := map toStr values in
    let st := run events (ready panels navEls docHeight w) in
    NoDup names ->
    ~ In "nav-item" names ->
    ~ In "active" names ->
    nth_error navEls n = Some nav ->
    secondClass (navOwner nav) = from ->
    nth_error values j = Some from ->
    nth_error values k = Some to ->
    j <> k ->
    (to = undefined ->
     navItemClick n k st = showSection "undefined" "up" st)
    /\ (from = undefined ->
        navItemClick n k st = showSection (toStr to) "down" st).
Proof.
  intros panels navEls docHeight w events n j k nav from to values names st
         Hnd Hni Hna Hnav Hown Hj Hk Hjk.
  assert (Hjs : nth_error names j = Some (toStr from))
    by (unfold names; now rewrite nth_error_map, Hj).
  assert (Hks : nth_error names k = Some (toStr to))
    by (unfold names; now rewrite nth_error_map, Hk).
  assert (Hfrom : In (toStr from) names) by (eapply nth_error_In; eassumption).
  assert (Hndv : NoDup values) by (apply (NoDup_map_inv toStr); exact Hnd).
  destruct (reached_navs_sections panels navEls docHeight w events n nav Hnav)
    as [Hsecs Hn]. fold st in Hsecs, Hn. fold values in Hsecs.
  rewrite Hown in Hn.
  rewrite <- (map_map (fun p => secondClass (classes p)) toStr) in Hn.
  fold values in Hn. fold names in Hn.
  pose proof (navItemClick_spec names (toStr from) Hnd Hni Hna Hfrom st
                (navOwner nav) n j k (toStr to) Hn Hjs Hks) as Hclick.
  pose proof Hjk as Hjk'. apply Nat.eqb_neq in Hjk'.
  rewrite Hjk' in Hclick. rewrite Hclick.
  assert (Hnone : forall pos, nth_error values pos = Some undefined ->
                              ~ In (Str "undefined") values).
  { intros pos Hpos Hin. apply In_nth_error in Hin. destruct Hin as [q Hq].
    assert (pos = q); [|subst; congruence].
    apply (proj1 (NoDup_nth_error names) Hnd).
    - unfold names. rewrite length_map. apply nth_error_Some. congruence.
    - unfold names. now rewrite !nth_error_map, Hpos, Hq. }
  unfold navDirection. rewrite Hsecs. split.
  - intros ->. simpl toStr.
    rewrite (indexOf_absent values (Str "undefined") (Hnone k Hk)).
    destruct from as [|f].
    + exfalso. apply Hjk.
      apply (proj1 (NoDup_nth_error values) Hndv);
        [apply nth_error_Some; congruence | congruence].
    + simpl toStr. rewrite (indexOf_nth values j (Str f) Hndv Hj).
      destruct (Z.of_nat j >? -1)%Z eqn:E; [reflexivity | lia].
  - intros ->. simpl toStr.
    rewrite (indexOf_absent values (Str "undefined") (Hnone j Hj)).
    destruct to as [|t].
    + exfalso. apply Hjk.
      apply (proj1 (NoDup_nth_error values) Hndv);
        [apply nth_error_Some; congruence | congruence].
    + simpl toStr. rewrite (indexOf_nth values k (Str t) Hndv Hk).
      destruct (-1 >? Z.of_nat k)%Z eqn:E; [lia | reflexivity].
Qed.

(** X20 on the page whose second column has no second class: a click on
    its item in the nav of the home column. *)
Lemma X20_witness :
  navItemClick 0 1 MoreSamples.nameless
  = showSection "undefined" "up" MoreSamples.nameless.
Proof.
  refine (proj1 (X20_nameless_column_is_never_found
                   MoreSamples.namelessPanels MoreSamples.namelessNavs
                   1000 900 [] 0 0 1 (mkNav ["inner-col"; "home"] [])
                   (Str "home") undefined
                   _ _ _ eq_refl eq_refl eq_refl eq_refl _) eq_refl).
  - repeat constructor; simpl; intuition discriminate.
  - simpl. intuition discriminate.
  - simpl. intuition discriminate.
  - discriminate.
Defined.

Lemma is_slideIn (c dir : string) (d : Q) (p : Panel) :
  is_ c (slideIn dir d p) = is_ c p.
Proof. reflexivity. Qed.

(** X7: on a paneled page reached from the ready handler, a click on the
    item of another section starts a transition to it, and once the timer
    of that transition has fired the page shows the columns that carry the
    name of the clicked section and no others: those columns are not
    hidden, have [display: block] and an animation to [top: 50%] queued
    last; every other column is hidden with [display: none]. *)
Theorem X7_nav_click_shows_the_clicked_section :
  forall (panels : list Panel) (navEls : list Nav) (docHeight : Q) (w : Z)
         (events : list Event) (n j k : nat) (nav : Nav) (to : string)
         (i : nat) (p : Panel),
    let names := map (fun p => toStr (secondClass (classes p))) panels in
    let st := run events (ready panels navEls docHeight w) in
    NoDup names ->
    ~ In "nav-item" names ->
    ~ In "active" names ->
    ~ In "hidden" names ->
    ~ In "mobile" names ->
    nth_error navEls n = Some nav ->
    nth_error names j = Some (toStr (secondClass (navOwner nav))) ->
    nth_error names k = Some to ->
    j <> k ->
    mobile st = false ->
    nth_error panels i = Some p ->
    exists p' : Panel,
      nth_error (cols (settle (navItemClick n k st))) i = Some p'
      /\ if is_ to p
         then shown p'
              /\ exists before, fx p' = before ++ [mkAnim (TopPercent 50) "3s"]
         else putAway p'.
Proof.
  intros panels navEls docHeight w events n j k nav to i p names st
         Hnd Hni Hna Hnh Hnm Hnav Hj Hk Hjk Hm Hp.
  assert (Hto : In to names) by (eapply nth_error_In; eassumption).
  assert (Hfrom : In (toStr (secondClass (navOwner nav))) names)
    by (eapply nth_error_In; eassumption).
  assert (Hth : to <> "hidden") by (intros ->; contradiction).
  assert (Htm : to <> "mobile") by (intros ->; contradiction).
  destruct (reached_navs_sections panels navEls docHeight w events n nav Hnav)
    as [_ Hn]. fold st in Hn. fold names in Hn.
  pose proof (navItemClick_spec names (toStr (secondClass (navOwner nav)))
                Hnd Hni Hna Hfrom st (navOwner nav) n j k to
                Hn Hj Hk) as Hclick.
  apply Nat.eqb_neq in Hjk. rewrite Hjk in Hclick. rewrite Hclick.
  set (dir := navDirection (sections st)
                           (toStr (secondClass (navOwner nav))) (Str to)).
  assert (Hcls : map (is_ to) (cols st) = map (is_ to) panels).
  { unfold st. rewrite (run_keeps_class to Hth Htm). unfold ready.
    now rewrite (checkWidths_keeps_class to Hth Htm). }
  apply (f_equal (fun l => nth_error l i)) in Hcls.
  rewrite !nth_error_map, Hp in Hcls. simpl in Hcls.
  destruct (nth_error (cols st) i) as [q|] eqn:Hq; [|discriminate].
  simpl in Hcls. injection Hcls as Hcls.
  pose proof (showSection_col_cases st to dir i q Hm Hth Hq) as Hcol.
  destruct (settle_spec _ (showSection to dir st)
              (showSection_timers st to dir Hm)) as [_ Hset].
  { intros H. apply app_eq_nil in H. destruct H as [_ H]. discriminate. }
  rewrite (Hset i _ Hcol). eexists. split; [reflexivity|].
  rewrite <- Hcls.
  destruct (is_ "hidden" q) eqn:Eh, (is_ to q) eqn:Et.
  - rewrite is_slideIn, is_hidden_unhide. unfold shown. split.
    + split; [rewrite is_slideIn; apply is_hidden_unhide | reflexivity].
    + eexists. reflexivity.
  - rewrite Eh. unfold putAway, is_ in *. simpl. split; [exact Eh|reflexivity].
  - rewrite is_slideIn, is_hidden_unhide. unfold shown. split.
    + split; [rewrite is_slideIn; apply is_hidden_unhide | reflexivity].
    + eexists. reflexivity.
  - rewrite is_hidden_slideOut. unfold putAway. split; [|reflexivity].
    apply is_hidden_slideOut.
Qed.

(** X7 on the sample page, after a first transition to the work section:
    item 1 of the nav of the work column brings up the about column. *)
Lemma X7_witness :
  exists p' : Panel,
    nth_error (cols (settle (navItemClick 2 1
                               (run [NavItemClick 0 2; TimerFires 0]
                                    Samples.paneled)))) 1 = Some p'
    /\ is_ "hidden" p' = false /\ display p' = DisplayBlock.
Proof.
  destruct (X7_nav_click_shows_the_clicked_section
              Samples.panels Samples.navEls 1000 900
              [NavItemClick 0 2; TimerFires 0] 2 2 1
              (mkNav ["inner-col"; "work"; "hidden"] []) "about" 1
              (mkPanel ["inner-col"; "about"; "hidden"] DisplayUnset TopUnset
                       600 []))
    as [p' [Hnth Hshape]].
  - repeat constructor; simpl; intuition discriminate.
  - simpl. intuition discriminate.
  - simpl. intuition discriminate.
  - simpl. intuition discriminate.
  - simpl. intuition discriminate.
  - reflexivity.
  - reflexivity.
  - reflexivity.
  - discriminate.
  - reflexivity.
  - reflexivity.
  - exists p'. split; [exact Hnth|]. exact (proj1 Hshape).
Defined.

End NavStructure.

(** * The meters and the logo *)

Section MetersProps.

Import Meters.

Lemma removeClass_absent (c : string) (cl : list string) :
  hasClass c cl = false -> removeClass c cl = cl.
Proof.
  induction cl as [|x cl IH]; simpl; intros H; [reflexivity|].
  apply orb_false_iff in H. destruct H as [Hx Hcl].
  rewrite Hx. simpl. now rewrite IH.
Qed.

Lemma addClass_present (c : string) (cl : list string) :
  hasClass c cl = true -> addClass c cl = cl.
Proof. intros H. unfold addClass. now rewrite H. Qed.

Lemma addClass_twice (c : string) (cl : list string) :
  addClass c (addClass c cl) = addClass c cl.
Proof. apply addClass_present. apply hasClass_addClass_same. Qed.

Lemma removeClass_twice (c : string) (cl : list string) :
  removeClass c (removeClass c cl) = removeClass c cl.
Proof. apply removeClass_absent. apply hasClass_removeClass_same. Qed.

(** A class list from which [out] was removed and to which [into] was
    added is left alone by doing both again. *)
Lemma swap_twice (into out : string) (cl : list string) :
  into <> out ->
  addClass into (removeClass out (addClass into (removeClass out cl)))
  = addClass into (removeClass out cl).
Proof.
  intros Hne.
  rewrite (removeClass_absent out).
  - apply addClass_twice.
  - rewrite hasClass_addClass_other by congruence.
    apply hasClass_removeClass_same.
Qed.

Lemma firstClass_in (cl : list string) (c : string) :
  hasClass c cl = true -> hasClass (firstClass cl) cl = true.
Proof.
  destruct cl as [|x cl]; simpl; [discriminate|].
  intros _. now rewrite String.eqb_refl.
Qed.

(** What [switchMeters] makes of one header. *)
Lemma switchMeters_span (boxToShow : string) (m : State) (k : nat)
  (cl : list string) :
  boxToShow <> "active" ->
  boxToShow <> "inactive" ->
  nth_error (spans m) k = Some cl ->
  exists cl' : list string,
    nth_error (spans (switchMeters boxToShow m)) k = Some cl'
    /\ hasClass "active" cl' = hasClass boxToShow cl
    /\ hasClass "inactive" cl' = negb (hasClass boxToShow cl)
    /\ forall c, c <> "active" -> c <> "inactive" ->
                 hasClass c cl' = hasClass c cl.
Proof.
  intros Ha Hi Hcl. simpl. rewrite nth_error_map, Hcl. simpl.
  eexists. split; [reflexivity|].
  destruct (hasClass boxToShow cl); simpl.
  - split; [apply hasClass_addClass_same|]. split.
    + rewrite hasClass_addClass_other by discriminate.
      apply hasClass_removeClass_same.
    + intros c Hc1 Hc2.
      rewrite hasClass_addClass_other by assumption.
      now apply hasClass_removeClass_other.
  - split; [|split; [apply hasClass_addClass_same|]].
    + rewrite hasClass_addClass_other by discriminate.
      apply hasClass_removeClass_same.
    + intros c Hc1 Hc2.
      rewrite hasClass_addClass_other by assumption.
      now apply hasClass_removeClass_other.
Qed.

(** X8: after [switchMeters] a box is shown exactly if it carries the class
    asked for (no [hidden], [display: block]) and is otherwise hidden with
    [display: none]; a header is [active] exactly if it carries that class
    and [inactive] otherwise, never both; and no other class of a box or a
    header changes. *)
Theorem X8_switchMeters_shows_the_chosen_boxes :
  forall (boxToShow : string) (m : State),
    boxToShow <> "hidden" ->
    boxToShow <> "active" ->
    boxToShow <> "inactive" ->
    (forall i b,
        nth_error (boxes m) i = Some b ->
        exists b' : Box,
          nth_error (boxes (switchMeters boxToShow m)) i = Some b'
          /\ hasClass "hidden" (boxClasses b')
             = negb (hasClass boxToShow (boxClasses b))
          /\ boxDisplay b'
             = (if hasClass boxToShow (boxClasses b)
                then DisplayBlock else DisplayNone)
          /\ forall c, c <> "hidden" ->
                       hasClass c (boxClasses b') = hasClass c (boxClasses b))
    /\ (forall k cl,
          nth_error (spans m) k = Some cl ->
          exists cl' : list string,
            nth_error (spans (switchMeters boxToShow m)) k = Some cl'
            /\ hasClass "active" cl' = hasClass boxToShow cl
            /\ hasClass "inactive" cl' = negb (hasClass boxToShow cl)
            /\ forall c, c <> "active" -> c <> "inactive" ->
                         hasClass c cl' = hasClass c cl).
Proof.
  intros boxToShow m Hh Ha Hi. split.
  - intros i b Hb. simpl. rewrite nth_error_map, Hb. simpl.
    eexists. split; [reflexivity|].
    destruct (hasClass boxToShow (boxClasses b)); simpl.
    + split; [apply hasClass_removeClass_same|]. split; [reflexivity|].
      intros c Hc. now apply hasClass_removeClass_other.
    + split; [apply hasClass_addClass_same|]. split; [reflexivity|].
      intros c Hc. now apply hasClass_addClass_other.
  - intros k cl Hcl. now apply switchMeters_span.
Qed.

(** X8 on the sample meters: the qualities are asked for. *)
Lemma X8_witness :
  exists b' : Box,
    nth_error (boxes (switchMeters "qualities" MoreSamples.meters)) 1
    = Some b'
    /\ hasClass "hidden" (boxClasses b') = false
    /\ boxDisplay b' = DisplayBlock.
Proof.
  destruct (X8_switchMeters_shows_the_chosen_boxes
              "qualities" MoreSamples.meters)
    as [Hboxes _]; [discriminate | discriminate | discriminate |].
  destruct (Hboxes 1%nat (mkBox ["qualities"; "box"; "hidden"] DisplayNone)
                   eq_refl) as [b' [Hnth [Hhid [Hdisp _]]]].
  exists b'. split; [exact Hnth|]. split; [exact Hhid | exact Hdisp].
Defined.

(** X9: asking for the meters that are already showing changes nothing:
    a second [switchMeters] with the same class leaves the boxes and the
    headers exactly as the first left them. *)
Theorem X9_switchMeters_is_idempotent :
  forall (boxToShow : string) (m : State),
    boxToShow <> "hidden" ->
    boxToShow <> "active" ->
    boxToShow <> "inactive" ->
    switchMeters boxToShow (switchMeters boxToShow m)
    = switchMeters boxToShow m.
Proof.
  intros boxToShow m Hh Ha Hi. unfold switchMeters. simpl.
  rewrite !map_map. f_equal.
  - apply map_ext. intros b.
    destruct (hasClass boxToShow (boxClasses b)) eqn:E; simpl.
    + rewrite hasClass_removeClass_other, E by assumption.
      now rewrite removeClass_twice.
    + rewrite hasClass_addClass_other, E by assumption.
      now rewrite addClass_twice.
  - apply map_ext. intros cl.
    destruct (hasClass boxToShow cl) eqn:E.
    + rewrite hasClass_addClass_other, hasClass_removeClass_other, E
        by assumption.
      apply swap_twice. discriminate.
    + rewrite hasClass_addClass_other, hasClass_removeClass_other, E
        by assumption.
      apply swap_twice. discriminate.
Qed.

(** X9 on the sample meters. *)
Lemma X9_witness :
  switchMeters "interests" (switchMeters "interests" MoreSamples.meters)
  = switchMeters "interests" MoreSamples.meters.
Proof.
  apply (X9_switchMeters_is_idempotent "interests" MoreSamples.meters);
    discriminate.
Defined.

Lemma nextMeters_values (curr : string) :
  nextMeters curr = "skills" \/ nextMeters curr = "qualities"
  \/ nextMeters curr = "interests".
Proof.
  unfold nextMeters. destruct (curr =? "skills"); [now (right; left)|].
  destruct (curr =? "qualities"); [now (right; right) | now left].
Qed.

(** X10: a click on a box always brings up one of the three meters, the
    one after the first class of the clicked box in the round skills,
    qualities, interests, and the skills for any other class: afterwards
    a box is shown exactly if it carries that meter's class, and three
    clicks on boxes of a meter and of its two successors name the first
    meter again. *)
Theorem X10_box_click_rotates_the_meters :
  forall (clicked : list string) (m : State) (i : nat) (b : Box),
    nth_error (boxes m) i = Some b ->
    let next := nextMeters (firstClass clicked) in
    In next ["skills"; "qualities"; "interests"]
    /\ (In (firstClass clicked) ["skills"; "qualities"; "interests"] ->
        nextMeters (nextMeters next) = firstClass clicked)
    /\ (~ In (firstClass clicked) ["skills"; "qualities"; "interests"] ->
        next = "skills")
    /\ exists b' : Box,
         nth_error (boxes (boxClick clicked m)) i = Some b'
         /\ hasClass "hidden" (boxClasses b')
            = negb (hasClass next (boxClasses b))
         /\ boxDisplay b'
            = (if hasClass next (boxClasses b)
               then DisplayBlock else DisplayNone).
Proof.
  intros clicked m i b Hb next.
  split; [|split; [|split]].
  - unfold next. simpl.
    destruct (nextMeters_values (firstClass clicked)) as [H|[H|H]];
      rewrite H; auto.
  - unfold next. simpl. intros [H|[H|[H|[]]]]; rewrite <- H; reflexivity.
  - unfold next, nextMeters. simpl. intros H.
    destruct (String.eqb_spec (firstClass clicked) "skills") as [E|_];
      [exfalso; apply H; left; now rewrite E|].
    destruct (String.eqb_spec (firstClass clicked) "qualities") as [E|_];
      [exfalso; apply H; right; left; now rewrite E|].
    reflexivity.
  - unfold boxClick. fold next. simpl. rewrite nth_error_map, Hb. simpl.
    eexists. split; [reflexivity|].
    assert (Hnext : next <> "hidden").
    { unfold next.
      destruct (nextMeters_values (firstClass clicked)) as [H|[H|H]];
        rewrite H; discriminate. }
    destruct (hasClass next (boxClasses b)); simpl.
    + split; [apply hasClass_removeClass_same | reflexivity].
    + split; [apply hasClass_addClass_same | reflexivity].
Qed.

(** X10 on the sample meters: a click on the skills box. *)
Lemma X10_witness :
  exists b' : Box,
    nth_error (boxes (boxClick ["skills"; "box"] MoreSamples.meters)) 0
    = Some b'
    /\ hasClass "hidden" (boxClasses b') = true
    /\ boxDisplay b' = DisplayNone.
Proof.
  destruct (X10_box_click_rotates_the_meters
              ["skills"; "box"] MoreSamples.meters 0
              (mkBox ["skills"; "box"] DisplayBlock) eq_refl)
    as [_ [_ [_ [b' [Hnth [Hhid Hdisp]]]]]].
  exists b'. split; [exact Hnth|]. split; [exact Hhid | exact Hdisp].
Defined.

(** X11: a click on a header that is not [inactive] does nothing; a click
    on an inactive header brings up the meters named by its first class:
    that header becomes active and is no longer inactive, and every header
    is then active exactly if it carries that class. *)
Theorem X11_header_click_activates_the_header :
  forall (k : nat) (cl : list string) (m : State),
    nth_error (spans m) k = Some cl ->
    firstClass cl <> "active" ->
    firstClass cl <> "inactive" ->
    (hasClass "inactive" cl = false -> spanClick k m = m)
    /\ (hasClass "inactive" cl = true ->
        spanClick k m = switchMeters (firstClass cl) m
        /\ (exists cl' : list string,
              nth_error (spans (spanClick k m)) k = Some cl'
              /\ hasClass "active" cl' = true
              /\ hasClass "inactive" cl' = false)
        /\ forall j other,
             nth_error (spans m) j = Some other ->
             exists other' : list string,
               nth_error (spans (spanClick k m)) j = Some other'
               /\ hasClass "active" other'
                  = hasClass (firstClass cl) other).
Proof.
  intros k cl m Hcl Ha Hi. split.
  - intros Hact. unfold spanClick. now rewrite Hcl, Hact.
  - intros Hin.
    assert (Hclick : spanClick k m = switchMeters (firstClass cl) m)
      by (unfold spanClick; now rewrite Hcl, Hin).
    split; [exact Hclick|]. rewrite Hclick. split.
    + destruct (switchMeters_span (firstClass cl) m k cl Ha Hi Hcl)
        as [cl' [Hnth [Hact [Hinact _]]]].
      exists cl'. rewrite (firstClass_in cl "inactive" Hin) in Hact, Hinact.
      split; [exact Hnth|]. split; assumption.
    + intros j other Hother.
      destruct (switchMeters_span (firstClass cl) m j other Ha Hi Hother)
        as [o' [Hnth [Hact _]]].
      exists o'. split; assumption.
Qed.

(** X11 on the sample meters: a click on the header of the interests. *)
Lemma X11_witness :
  exists cl' : list string,
    nth_error (spans (spanClick 2 MoreSamples.meters)) 2 = Some cl'
    /\ hasClass "active" cl' = true
    /\ hasClass "inactive" cl' = false.
Proof.
  destruct (X11_header_click_activates_the_header
              2 ["interests"; "inactive"] MoreSamples.meters eq_refl)
    as [_ H]; [discriminate | discriminate |].
  destruct (H eq_refl) as [_ [Hk _]]. exact Hk.
Defined.

End MetersProps.

Section LogoProps.

Import Logo.

Lemma removeClass_addClass_absent (c : string) (cl : list string) :
  hasClass c cl = false -> removeClass c (addClass c cl) = cl.
Proof.
  intros H. unfold addClass. rewrite H.
  transitivity (removeClass c cl ++ removeClass c [c]).
  - unfold removeClass. apply filter_app.
  - simpl. rewrite String.eqb_refl. simpl. rewrite app_nil_r.
    now apply removeClass_absent.
Qed.

(** X12: the pointer entering and leaving the logo turns it half way and
    then all the way round: from a logo that is not marked [hovering] the
    first call leaves [rotateY(180deg)] and the mark, the second
    [rotateY(360deg)] and the class list exactly as it was before; the
    [translate] comes first in both unless the logo sits in a [.mob]
    side. *)
Theorem X12_hover_turns_the_logo_round :
  forall i : Img,
    hasClass "hovering" (imgClasses i) = false ->
    let prefix := if inMob i then "" else "translate(-50%, -50%)" in
    transform (hover i) = (prefix ++ " rotateY(180deg)")%string
    /\ hasClass "hovering" (imgClasses (hover i)) = true
    /\ hover (hover i)
       = mkImg (imgClasses i) (prefix ++ " rotateY(360deg)")%string (inMob i).
Proof.
  intros i Hno prefix. unfold hover at 1 2. rewrite Hno.
  split; [unfold prefix; destruct (inMob i); reflexivity|].
  split; [apply hasClass_addClass_same|].
  unfold hover. rewrite Hno. cbn [imgClasses inMob].
  rewrite hasClass_addClass_same.
  rewrite (removeClass_addClass_absent "hovering" (imgClasses i) Hno).
  unfold prefix. destruct (inMob i); reflexivity.
Qed.

(** X12 on the sample logo. *)
Lemma X12_witness :
  hover (hover MoreSamples.logo)
  = mkImg ["logo"] "translate(-50%, -50%) rotateY(360deg)" false.
Proof.
  exact (proj2 (proj2 (X12_hover_turns_the_logo_round
                         MoreSamples.logo eq_refl))).
Defined.

End LogoProps.

(** * Further properties of the projects script *)

Section ProjectsProps.

Import Projects.

(** The loops of [toggleInfo] that keep the last match. *)
Lemma keep_last_spec {A : Type} (f : A -> bool) (l : list A) :
  match fold_left (fun found x => if f x then Some x else found) l None with
  | Some x =>
      f x = true
      /\ exists before after,
           l = before ++ x :: after
           /\ forall y, In y after -> f y = false
  | None => forall y, In y l -> f y = false
  end.
Proof.
  induction l as [|x l IH] using rev_ind; simpl; [intros y []|].
  rewrite fold_left_app. simpl.
  destruct (f x) eqn:Ex.
  - split; [exact Ex|]. exists l, []. split; [reflexivity | intros y []].
  - destruct (fold_left (fun found x0 => if f x0 then Some x0 else found)
                        l None) as [z|].
    + destruct IH as [Hz [before [after [Hl Hafter]]]].
      split; [exact Hz|]. exists before, (after ++ [x]).
      split; [rewrite Hl, <- app_assoc; reflexivity|].
      intros y Hy. apply in_app_iff in Hy.
      destruct Hy as [Hy|[<-|[]]]; [now apply Hafter | exact Ex].
    + intros y Hy. apply in_app_iff in Hy.
      destruct Hy as [Hy|[<-|[]]]; [now apply IH | exact Ex].
Qed.

Lemma findCard_none (proj : string) (cs : list Card) :
  findCard proj cs = None <-> forall c, In c cs -> cardTitle c <> proj.
Proof.
  pose proof (keep_last_spec (fun c => cardTitle c =? proj) cs) as Hc.
  cbv beta in Hc. fold (findCard proj cs) in Hc. split.
  - intros Hfind. rewrite Hfind in Hc. intros c Hin.
    apply String.eqb_neq. now apply Hc.
  - intros Hnone. destruct (findCard proj cs) as [c|]; [|reflexivity].
    destruct Hc as [Hm [before [after [Hl _]]]].
    exfalso. apply (Hnone c); [|now apply String.eqb_eq].
    rewrite Hl. apply in_app_iff. right. now left.
Qed.

Lemma findProject_none (proj : string) (ps : list Project) :
  findProject proj ps = None <-> forall p, In p ps -> name p <> proj.
Proof.
  pose proof (keep_last_spec (fun p => name p =? proj) ps) as Hp.
  cbv beta in Hp. fold (findProject proj ps) in Hp. split.
  - intros Hfind. rewrite Hfind in Hp. intros p Hin.
    apply String.eqb_neq. now apply Hp.
  - intros Hnone. destruct (findProject proj ps) as [p|]; [|reflexivity].
    destruct Hp as [Hm [before [after [Hl _]]]].
    exfalso. apply (Hnone p); [|now apply String.eqb_eq].
    rewrite Hl. apply in_app_iff. right. now left.
Qed.

(** X13: the two look-ups of [toggleInfo] find the last card whose heading
    is the project name, and the last project of that name: what they
    return is in the list, matches, and has no match after it; they
    return nothing exactly if the list holds no match. *)
Theorem X13_lookups_keep_the_last_match :
  forall (proj : string) (cs : list Card) (ps : list Project),
    (forall c, findCard proj cs = Some c ->
               cardTitle c = proj
               /\ exists before after,
                    cs = before ++ c :: after
                    /\ forall c', In c' after -> cardTitle c' <> proj)
    /\ (findCard proj cs = None <->
        forall c, In c cs -> cardTitle c <> proj)
    /\ (forall p, findProject proj ps = Some p ->
                  name p = proj
                  /\ exists before after,
                       ps = before ++ p :: after
                       /\ forall p', In p' after -> name p' <> proj)
    /\ (findProject proj ps = None <->
        forall p, In p ps -> name p <> proj).
Proof.
  intros proj cs ps.
  pose proof (keep_last_spec (fun c => cardTitle c =? proj) cs) as Hc.
  pose proof (keep_last_spec (fun p => name p =? proj) ps) as Hp.
  cbv beta in Hc, Hp.
  fold (findCard proj cs) in Hc. fold (findProject proj ps) in Hp.
  split; [|split; [apply findCard_none|split; [|apply findProject_none]]].
  - intros c Hfind. rewrite Hfind in Hc.
    destruct Hc as [Hm [before [after [Hl Hafter]]]].
    split; [now apply String.eqb_eq|]. exists before, after.
    split; [exact Hl|]. intros c' Hin. apply String.eqb_neq. now apply Hafter.
  - intros p Hfind. rewrite Hfind in Hp.
    destruct Hp as [Hm [before [after [Hl Hafter]]]].
    split; [now apply String.eqb_eq|]. exists before, after.
    split; [exact Hl|]. intros p' Hin. apply String.eqb_neq. now apply Hafter.
Qed.

(** X13 with two cards of the same heading: the later one is found. *)
Lemma X13_witness :
  cardTitle (mkCard "Alpha" 300 40 80 120) = "Alpha".
Proof.
  exact (proj1 (proj1 (X13_lookups_keep_the_last_match
                         "Alpha"
                         [mkCard "Alpha" 100 40 80 120;
                          mkCard "Beta" 200 40 80 120;
                          mkCard "Alpha" 300 40 80 120] [])
                      (mkCard "Alpha" 300 40 80 120) eq_refl)).
Defined.

(** X14: [toggleInfo] throws exactly when the project data has not
    arrived, when no card carries the project name as its heading, or, on
    opening, when the data holds no project of that name or the last
    project of that name has no [timescale] or no [desc] to split.  When
    it returns it has flipped the [hidden] class of the info view and left
    the project data and the cards alone. *)
Theorem X14_toggleInfo_fails_only_on_missing_data :
  forall (dir proj : string) (s : ProjPage),
    (toggleInfo dir proj s = None <->
     projData s = None
     \/ (forall c, In c (cards s) -> cardTitle c <> proj)
     \/ (dir = "out"
         /\ exists ps,
              projData s = Some ps
              /\ ((forall p, In p ps -> name p <> proj)
                  \/ exists p, findProject proj ps = Some p
                               /\ (timescale p = None \/ desc p = None))))
    /\ (forall s', toggleInfo dir proj s = Some s' ->
                   projData s' = projData s
                   /\ cards s' = cards s
                   /\ hasClass "hidden" (infoClasses s')
                      = negb (hasClass "hidden" (infoClasses s))).
Proof.
  intros dir proj s. split.
  - unfold toggleInfo.
    destruct (projData s) as [ps|] eqn:Hd; [|split; auto].
    destruct (findCard proj (cards s)) as [card|] eqn:Hc.
    + destruct (String.eqb_spec dir "out") as [->|Hdir].
      * destruct (findProject proj ps) as [p|] eqn:Hp.
        -- destruct (timescale p) as [ts|] eqn:Hts;
             [destruct (desc p) as [d|] eqn:Hde|].
           ++ split; [discriminate|].
              intros [H|[H|[_ [ps' [Hps' [H|[p' [Hp' H]]]]]]]];
                [discriminate| | |].
              ** apply findCard_none in H. congruence.
              ** injection Hps' as <-. apply findProject_none in H.
                 congruence.
              ** injection Hps' as <-. rewrite Hp in Hp'.
                 injection Hp' as <-. destruct H; congruence.
           ++ split; [|reflexivity]. intros _. right. right.
              split; [reflexivity|]. exists ps. split; [reflexivity|].
              right. exists p. auto.
           ++ split; [|reflexivity]. intros _. right. right.
              split; [reflexivity|]. exists ps. split; [reflexivity|].
              right. exists p. auto.
        -- split; [|reflexivity]. intros _. right. right.
           split; [reflexivity|]. exists ps. split; [reflexivity|].
           left. now apply findProject_none.
      * split; [discriminate|].
        intros [H|[H|[H _]]]; [discriminate| |contradiction].
        apply findCard_none in H. congruence.
    + split; [|reflexivity]. intros _. right. left. now apply findCard_none.
  - intros s' Hs'. unfold toggleInfo in Hs'.
    destruct (projData s) as [ps|]; [|discriminate].
    destruct (findCard proj (cards s)) as [card|]; [|discriminate].
    destruct (dir =? "out").
    + destruct (findProject proj ps) as [p|]; [|discriminate].
      destruct (timescale p); [|discriminate].
      destruct (desc p); [|discriminate].
      injection Hs' as <-. simpl. repeat split. apply hasClass_toggleClass.
    + injection Hs' as <-. simpl. repeat split. apply hasClass_toggleClass.
Qed.

(** X14 on the sample page: a project that has no card, and a project
    whose entry has no description. *)
Lemma X14_witness :
  toggleInfo "out" "Omega" Samples.openInfo = None
  /\ toggleInfo "out" "Alpha"
       (mkProjPage
          (Some [mkProject "Alpha" "" (Some "2016 - 2017") None])
          [mkCard "Alpha" 100 40 80 120]
          ["extra-info"; "hidden"] "" 0 0 [] [] [])
     = None.
Proof.
  split.
  - apply (proj1 (X14_toggleInfo_fails_only_on_missing_data
                    "out" "Omega" Samples.openInfo)).
    right. left. intros c [<-|[]]. discriminate.
  - apply (proj1 (X14_toggleInfo_fails_only_on_missing_data
                    "out" "Alpha" _)).
    right. right. split; [reflexivity|]. eexists. split; [reflexivity|].
    right. eexists. split; [reflexivity|]. right. reflexivity.
Defined.

(** X15: opening the info view of a card and closing it again with the
    exit mark brings the view back: it carries [hidden] exactly if it did
    before, the two animations queued on it shift [top] and [left] by
    opposite amounts, its contents are faded in and then out, and the
    overlay is faded out. *)
Theorem X15_open_then_exit_returns_the_view :
  forall (c : Card) (s s1 : ProjPage),
    cardClick c s = Some s1 ->
    exists (s2 : ProjPage) (open close : InfoAnim),
      exitClick s1 = Some s2
      /\ hasClass "hidden" (infoClasses s2) = hasClass "hidden" (infoClasses s)
      /\ infoFx s2 = infoFx s ++ [open; close]
      /\ shiftTop open + shiftTop close == 0
      /\ shiftLeft open + shiftLeft close == 0
      /\ contentFx s2 = contentFx s ++ [1; 0]
      /\ overlayFx s2 = overlayFx s ++ [0]
      /\ projData s2 = projData s
      /\ cards s2 = cards s.
Proof.
  intros c s s1 Hopen. unfold cardClick, toggleInfo in Hopen.
  destruct (projData s) as [ps|] eqn:Hd; [|discriminate].
  destruct (findCard (cardTitle c) (cards s)) as [card|] eqn:Hc;
    [|discriminate].
  simpl in Hopen.
  destruct (findProject (cardTitle c) ps) as [p|]; [|discriminate].
  destruct (timescale p); [|discriminate].
  destruct (desc p); [|discriminate].
  injection Hopen as <-.
  unfold exitClick, toggleInfo. simpl. rewrite ?Hd, ?Hc. simpl.
  eexists. eexists. eexists. split; [reflexivity|]. simpl.
  split; [rewrite !hasClass_toggleClass; apply negb_involutive|].
  split; [rewrite <- app_assoc; reflexivity|].
  split; [cbn [shiftTop]; rewrite Qplus_comm; apply Qplus_opp_r|].
  split; [cbn [shiftLeft]; rewrite Qplus_comm; apply Qplus_opp_r|].
  rewrite <- app_assoc. repeat split.
Qed.

(** X15 on the sample page with the info view closed. *)
Lemma X15_witness :
  exists s2 : ProjPage,
    exitClick (mkProjPage
                 (Some [mkProject "Alpha" "https://example.org/alpha"
                         (Some "2016 - 2017") (Some "An app.")])
                 [mkCard "Alpha" 100 40 80 120]
                 ["extra-info"] "Alpha" (100 + 80 / 2) (40 + 120 / 2)
                 [mkInfoAnim (- (100 + 80 / 2)) (- (40 + 120 / 2))] [1] [])
    = Some s2
    /\ hasClass "hidden" (infoClasses s2) = true.
Proof.
  destruct (X15_open_then_exit_returns_the_view
              (mkCard "Alpha" 100 40 80 120) MoreSamples.closedInfo _ eq_refl)
    as [s2 [_ [_ [Hexit [Hhid _]]]]].
  exists s2. split; [exact Hexit | exact Hhid].
Defined.

(** X16: when the nav handler of the projects script returns, the info
    view carries [hidden]: an open view has been told to close, and a
    closed one, like the project data and the cards, is left exactly as
    it was. *)
Theorem X16_nav_click_leaves_the_view_hidden :
  forall s s' : ProjPage,
    navItemClick s = Some s' ->
    hasClass "hidden" (infoClasses s') = true
    /\ projData s' = projData s
    /\ cards s' = cards s
    /\ (hasClass "hidden" (infoClasses s) = true -> s' = s).
Proof.
  intros s s' H. unfold navItemClick in H.
  destruct (hasClass "hidden" (infoClasses s)) eqn:Eh; simpl in H.
  - injection H as <-. repeat split. exact Eh.
  - unfold toggleInfo in H.
    destruct (projData s) as [ps|]; [|discriminate].
    destruct (findCard (infoTitle s) (cards s)) as [card|]; [|discriminate].
    simpl in H. injection H as <-. simpl.
    rewrite hasClass_toggleClass, Eh. repeat split. discriminate.
Qed.

(** X16 on the sample page with the info view open. *)
Lemma X16_witness :
  exists s' : ProjPage,
    navItemClick Samples.openInfo = Some s'
    /\ hasClass "hidden" (infoClasses s') = true.
Proof.
  eexists. split; [reflexivity|].
  exact (proj1 (X16_nav_click_leaves_the_view_hidden
                  Samples.openInfo _ eq_refl)).
Defined.

End ProjectsProps.

(** * The project list and the overlay *)

Section CatalogProps.

Import Catalog.

Lemma string_app_assoc (a b c : string) :
  ((a ++ b) ++ c)%string = (a ++ (b ++ c))%string.
Proof. induction a as [|x a IH]; simpl; [reflexivity | now rewrite IH]. Qed.

(** The loop of [addProjects] from any pair of lists built so far. *)
Lemma addProjects_loop (projects : list Entry) (currProjList oldProjList : string) :
  fold_left
    (fun lists curr =>
       let output := cardMarkup curr in
       if type curr =? "current"
       then ((fst lists ++ output)%string, snd lists)
       else (fst lists, (snd lists ++ output)%string))
    projects (currProjList, oldProjList)
  = ((currProjList
      ++ fold_right String.append ""
           (map cardMarkup
                (filter (fun e => type e =? "current") projects)))%string,
     (oldProjList
      ++ fold_right String.append ""
           (map cardMarkup
                (filter (fun e => negb (type e =? "current")) projects)))%string).
Proof.
  revert currProjList oldProjList.
  induction projects as [|e projects IH]; intros c o; simpl.
  - now rewrite !append_empty_r.
  - destruct (type e =? "current"); simpl; rewrite IH; simpl;
      now rewrite string_app_assoc.
Qed.

(** X17: [addProjects] throws exactly while the project data has not
    arrived; otherwise the list of current projects receives the markup of
    the entries whose type is "current", in the order of the data and
    nothing else, and the list of old projects the markup of all the
    other entries, so that every project gets its card in exactly one of
    the two lists. *)
Theorem X17_addProjects_splits_by_type :
  forall projData : option (list Entry),
    (addProjects projData = None <-> projData = None)
    /\ forall projects,
         projData = Some projects ->
         addProjects projData
         = Some (fold_right String.append ""
                   (map cardMarkup
                        (filter (fun e => type e =? "current") projects)),
                 fold_right String.append ""
                   (map cardMarkup
                        (filter (fun e => negb (type e =? "current"))
                                projects))).
Proof.
  intros projData. split.
  - destruct projData; simpl; split; intros H; congruence.
  - intros projects ->. simpl. f_equal. apply addProjects_loop.
Qed.

(** X17 on the sample data: two current projects around an old one. *)
Lemma X17_witness :
  addProjects (Some MoreSamples.entries)
  = Some ((cardMarkup (mkEntry "Alpha" "img/alpha.png" "First" "current"
                               "img/alpha-screen.png" "Alpha in use")
           ++ cardMarkup (mkEntry "Gamma" "img/gamma.png" "Third" "current"
                                  "img/gamma-screen.png" "Gamma in use")
           ++ "")%string,
          (cardMarkup (mkEntry "Beta" "img/beta.png" "Second" "old"
                               "img/beta-screen.png" "Beta in use")
           ++ "")%string).
Proof.
  exact (proj2 (X17_addProjects_splits_by_type (Some MoreSamples.entries))
               MoreSamples.entries eq_refl).
Defined.

(** The loop of [mouseenter] over entries of other names. *)
Lemma mouseenter_loop_no_match (head : string) (ps : list Entry)
  (d : Overlay) :
  (forall e, In e ps -> name e <> head) ->
  fold_left
    (fun d curr =>
       if head =? name curr then
         mkOverlay (infoClasses d) (projData d)
                   (Some ("url(" ++ dq ++ screen curr ++ dq ++ ")")%string)
                   (Some (caption curr)) (overlayFx d)
       else d)
    ps d
  = d.
Proof.
  revert d. induction ps as [|e ps IH]; intros d Hnone; simpl;
    [reflexivity|].
  assert (E : (head =? name e) = false).
  { apply String.eqb_neq. intros H. apply (Hnone e); [now left | now symmetry]. }
  rewrite E. apply IH. intros e' Hin. apply Hnone. now right.
Qed.

(** The loop never touches the classes, the data or the queue. *)
Lemma mouseenter_loop_frame (head : string) (ps : list Entry) (d : Overlay) :
  let d' :=
    fold_left
      (fun d curr =>
         if head =? name curr then
           mkOverlay (infoClasses d) (projData d)
                     (Some ("url(" ++ dq ++ screen curr ++ dq ++ ")")%string)
                     (Some (caption curr)) (overlayFx d)
         else d)
      ps d in
  infoClasses d' = infoClasses d /\ projData d' = projData d
  /\ overlayFx d' = overlayFx d.
Proof.
  revert d. induction ps as [|e ps IH]; intros d; simpl; [auto|].
  destruct (head =? name e).
  - destruct (IH (mkOverlay (infoClasses d) (projData d)
                    (Some ("url(" ++ dq ++ screen e ++ dq ++ ")")%string)
                    (Some (caption e)) (overlayFx d))) as [H1 [H2 H3]].
    simpl in *. auto.
  - apply IH.
Qed.

(** X18: with the info view open the two pointer handlers of the cards
    change nothing.  With it closed, [mouseenter] first drops whatever was
    queued on the overlay, so that only the fade to full opacity is left
    in the queue; it throws, after dropping the queue, while the project
    data has not arrived; it shows the screen shot and the caption of the
    last entry named like the card, and keeps the background and caption
    it had when no entry is. *)
Theorem X18_mouseenter_shows_the_last_matching_screen :
  forall (head : string) (o : Overlay),
    (infoHidden o = false -> mouseenter head o = Done o /\ mouseleave o = o)
    /\ (infoHidden o = true -> projData o = None ->
        mouseenter head o
        = Threw (mkOverlay (infoClasses o) None (backgroundImage o)
                           (overlayCaption o) []))
    /\ (forall ps, infoHidden o = true -> projData o = Some ps ->
        exists o' : Overlay,
          mouseenter head o = Done o'
          /\ infoClasses o' = infoClasses o
          /\ projData o' = projData o
          /\ overlayFx o' = [1]
          /\ ((forall e, In e ps -> name e <> head) ->
              backgroundImage o' = backgroundImage o
              /\ overlayCaption o' = overlayCaption o)
          /\ (forall before e after,
                ps = before ++ e :: after ->
                name e = head ->
                (forall e', In e' after -> name e' <> head) ->
                backgroundImage o'
                = Some ("url(" ++ dq ++ screen e ++ dq ++ ")")%string
                /\ overlayCaption o' = Some (caption e))).
Proof.
  intros head o. split; [|split].
  - intros Hopen. unfold mouseenter, mouseleave. now rewrite Hopen.
  - intros Hhid Hnone. unfold mouseenter. rewrite Hhid. simpl.
    now rewrite Hnone.
  - intros ps Hhid Hps. unfold mouseenter. rewrite Hhid.
    cbn [projData]. rewrite Hps.
    set (o1 := mkOverlay (infoClasses o) (Some ps) (backgroundImage o)
                         (overlayCaption o) []).
    destruct (mouseenter_loop_frame head ps o1) as [Hc [Hd Hq]].
    eexists. split; [reflexivity|].
    cbn [infoClasses projData overlayFx backgroundImage overlayCaption].
    rewrite Hc, Hd, Hq.
    split; [reflexivity|]. split; [reflexivity|]. split; [reflexivity|].
    split.
    + intros Hnone. now rewrite (mouseenter_loop_no_match head ps o1 Hnone).
    + intros before e after -> Hname Hafter.
      rewrite fold_left_app. cbn [fold_left].
      apply String.eqb_eq in Hname. rewrite String.eqb_sym in Hname.
      rewrite Hname.
      rewrite (mouseenter_loop_no_match head after _ Hafter).
      split; reflexivity.
Qed.

(** X18 on the sample overlay: the pointer enters the card of Beta while a
    fade-out is still queued. *)
Lemma X18_witness :
  exists o' : Overlay,
    mouseenter "Beta" MoreSamples.overlay = Done o'
    /\ overlayFx o' = [1]
    /\ overlayCaption o' = Some "Beta in use".
Proof.
  destruct (proj2 (proj2 (X18_mouseenter_shows_the_last_matching_screen
                            "Beta" MoreSamples.overlay))
                  MoreSamples.entries eq_refl eq_refl)
    as [o' [Hdone [_ [_ [Hfx [_ Hlast]]]]]].
  exists o'. split; [exact Hdone|]. split; [exact Hfx|].
  refine (proj2 (Hlast
                   [mkEntry "Alpha" "img/alpha.png" "First" "current"
                            "img/alpha-screen.png" "Alpha in use"]
                   (mkEntry "Beta" "img/beta.png" "Second" "old"
                            "img/beta-screen.png" "Beta in use")
                   [mkEntry "Gamma" "img/gamma.png" "Third" "current"
                            "img/gamma-screen.png" "Gamma in use"]
                   eq_refl eq_refl _)).
  intros e' [<-|[]]. discriminate.
Defined.

End CatalogProps.

(** * Further properties of the router listeners *)

Section MoreListeners.

Import App.

(** X19: whatever was registered with the router before, and whether or not
    the hook handed out a recalculation function, running the effect and
    then its clean-up leaves the router with the registrations it had: the
    clean-up takes out exactly as many listeners as the effect put in,
    none of another owner is lost and none of the container's is left
    behind. *)
Theorem X19_cleanup_undoes_the_effect :
  forall (recalc : option Handler) (ls : Listeners),
    Permutation (cleanup (snd (effect recalc ls)) (fst (effect recalc ls))) ls
    /\ List.length (fst (effect recalc ls))
       = (List.length ls + List.length (snd (effect recalc ls)))%nat.
Proof.
  intros recalc ls. split.
  - apply cleanup_removes. destruct recalc as [f|]; simpl; unfold on.
    + rewrite <- !app_assoc. simpl.
      eapply perm_trans; [apply Permutation_app_comm|].
      simpl.
      eapply perm_trans; [apply perm_skip, perm_swap | apply perm_swap].
    + rewrite <- !app_assoc. simpl. apply Permutation_app_comm.
  - destruct recalc as [f|]; simpl; unfold on; rewrite !length_app; simpl; lia.
Qed.

End MoreListeners.
